(** * claudecodeui integrations: chat session controller and service health poller

    A shallow embedding of the state-handling code of
    [src/components/MultiAgentChat.jsx] and
    [src/components/IntegrationDashboard.jsx].

    React state is a record; every handler of the component is a function
    from state to state.  Objects with identity (the WebSocket instances
    reached through [wsRef]) live in an explicit heap, so that a handler
    bound to an old socket and the socket [wsRef.current] points to can be
    told apart.  Values read from the clock ([Date.now()],
    [new Date().toISOString()]) are arguments of the handler that reads them. *)

From Stdlib Require Import Ascii.
From stdpp Require Import gmap strings list fin_maps pretty.

(** ** JavaScript values and string helpers *)

Module Js.

(** A JSON value, for payloads the code stores or forwards without
    looking inside. *)
#[local] Unset Elimination Schemes.
Inductive JsVal : Type :=
| JUndefined
| JNull
| JBool (b : bool)
| JNum (z : Z)
| JStr (s : string)
| JArr (l : list JsVal)
| JObj (l : list (string * JsVal)).
#[local] Set Elimination Schemes.

(** [a || d] on an optional string: [undefined] and the empty string are
    falsy. *)
Definition or_default (a : option string) (d : string) : string :=
  match a with
  | Some s => if decide (s = "") then d else s
  | None => d
  end.

(** A character of a [string] stands for one UTF-16 code unit below 256
    (the Latin-1 range); text outside that range is not represented.

    [String.prototype.trim]: leading and trailing white space and line
    terminators are removed.  Below 256 these are TAB, LF, VT, FF, CR, SP
    and the no-break space U+00A0. *)
Definition is_space (c : ascii) : bool :=
  let n := nat_of_ascii c in
  (n =? 32)%nat || ((9 <=? n)%nat && (n <=? 13)%nat) || (n =? 160)%nat.

Fixpoint trimStart (s : string) : string :=
  match s with
  | EmptyString => EmptyString
  | String c r => if is_space c then trimStart r else s
  end.

Definition trim (s : string) : string :=
  String.rev (trimStart (String.rev (trimStart s))).

(** [String.prototype.toLowerCase].  Below 256 the characters with a
    lower-case form of their own are A-Z and U+00C0-U+00DE less the
    multiplication sign U+00D7; each maps to the character 32 places on. *)
Definition lower_char (c : ascii) : ascii :=
  let n := nat_of_ascii c in
  if ((65 <=? n)%nat && (n <=? 90)%nat) ||
     ((192 <=? n)%nat && (n <=? 222)%nat && negb (n =? 215)%nat)
  then ascii_of_nat (n + 32) else c.

Fixpoint toLowerCase (s : string) : string :=
  match s with
  | EmptyString => EmptyString
  | String c r => String (lower_char c) (toLowerCase r)
  end.

(** [Array.prototype.join] on an array of strings. *)
Fixpoint join (sep : string) (l : list string) : string :=
  match l with
  | [] => ""
  | [x] => x
  | x :: r => x +:+ sep +:+ join sep r
  end.

(** [Array.prototype.includes] on an array of strings. *)
Definition includes (l : list string) (x : string) : bool :=
  bool_decide (x ∈ l).

End Js.

(** ** MultiAgentChat.jsx *)

Module MultiAgentChat.
Import Js.

Definition AUTOGEN_WS_URL : string := "ws://localhost:8000/ws/chat".

(** [WebSocket.readyState]. *)
Inductive ReadyState : Type := CONNECTING | OPEN | CLOSING | CLOSED.

#[global] Instance ReadyState_eq_dec : EqDecision ReadyState.
Proof. solve_decision. Defined.

(** The three envelopes the component serialises onto the socket. *)
Inductive Outbound : Type :=
| start_session (agents : list string)
| user_message (content : string)
| end_session.

(** A WebSocket object: its address, its [readyState], and the frames
    handed to [send] so far, oldest first. *)
Record WebSocket : Type := mkWebSocket {
  url : string;
  readyState : ReadyState;
  sent : list Outbound
}.

(** [ws.send(data)].  Every call site tests [readyState === OPEN] first;
    on a socket that is closing or closed the browser discards the frame. *)
Definition ws_send (o : Outbound) (w : WebSocket) : WebSocket :=
  match readyState w with
  | OPEN => mkWebSocket (url w) OPEN (sent w ++ [o])
  | _ => w
  end.

(** [ws.close()]: starts the closing handshake; the close event comes
    later.  Nothing happens on a socket already closing or closed. *)
Definition ws_close (w : WebSocket) : WebSocket :=
  match readyState w with
  | CONNECTING | OPEN => mkWebSocket (url w) CLOSING (sent w)
  | _ => w
  end.

(** An entry of the [messages] array; the constructor is its [type]. *)
Inductive ChatMessage : Type :=
| user (content timestamp : string)
| agent (sender : option string) (content : JsVal) (timestamp : string)
| system (content timestamp : string)
| error (content timestamp : string)
| action (act result success : JsVal) (timestamp : string).

(** A parsed inbound frame ([data] in [handleWebSocketMessage]).  The
    handler reads fields by name, whatever the [type]; a field it guards
    with [?.] or [||] is optional. *)
Record Envelope : Type := mkEnvelope {
  e_type : string;
  e_sender : option string;
  e_content : JsVal;
  e_timestamp : option string;
  e_agent : option string;
  e_status : string;
  e_message : option string;
  e_agents : option (list string);
  e_action : JsVal;
  e_result : JsVal;
  e_success : JsVal
}.

(** A callback registered by [setTimeout] in [startSession]; the closure
    holds the [selectedAgents] of the render that made the call. *)
Record Timer : Type := mkTimer {
  delay : N;
  captured_agents : list string
}.

(** The component state: the [useState] cells, [wsRef], the sockets
    created so far (a socket is named by its index) and the pending
    timers. *)
Record State : Type := mkState {
  messages : list ChatMessage;
  inputValue : string;
  selectedAgents : list string;
  isConnected : bool;
  isConnecting : bool;
  agentStatuses : gmap string string;
  sessionId : option string;
  errorBanner : option string;
  wsRef : option nat;
  sockets : list WebSocket;
  timers : list Timer
}.

Definition initial : State :=
  mkState [] "" ["gemini"; "claude"] false false ∅ None None None [] [].

(** The connection state the view shows: "Connected" when [isConnected],
    otherwise the Start Session button, labelled "Connecting..." while
    [isConnecting]. *)
Inductive ConnState : Type := disconnected | connecting | connected.

#[global] Instance ConnState_eq_dec : EqDecision ConnState.
Proof. solve_decision. Defined.

Definition connState (s : State) : ConnState :=
  if isConnected s then connected
  else if isConnecting s then connecting
  else disconnected.

(** [wsRef.current], dereferenced. *)
Definition current (s : State) : option WebSocket :=
  match wsRef s with
  | Some i => sockets s !! i
  | None => None
  end.

(** [wsRef.current?.readyState === WebSocket.OPEN]. *)
Definition ws_is_open (s : State) : bool :=
  match current s with
  | Some w => bool_decide (readyState w = OPEN)
  | None => false
  end.

(** Sockets whose connection attempt has not settled yet. *)
Definition outstanding (s : State) : nat :=
  length (filter (λ w, readyState w = CONNECTING) (sockets s)).

(** State setters. *)
Definition set_messages (f : list ChatMessage → list ChatMessage) (s : State) : State :=
  mkState (f (messages s)) (inputValue s) (selectedAgents s) (isConnected s)
    (isConnecting s) (agentStatuses s) (sessionId s) (errorBanner s) (wsRef s)
    (sockets s) (timers s).

Definition set_inputValue (v : string) (s : State) : State :=
  mkState (messages s) v (selectedAgents s) (isConnected s)
    (isConnecting s) (agentStatuses s) (sessionId s) (errorBanner s) (wsRef s)
    (sockets s) (timers s).

Definition set_selectedAgents (f : list string → list string) (s : State) : State :=
  mkState (messages s) (inputValue s) (f (selectedAgents s)) (isConnected s)
    (isConnecting s) (agentStatuses s) (sessionId s) (errorBanner s) (wsRef s)
    (sockets s) (timers s).

Definition set_isConnected (b : bool) (s : State) : State :=
  mkState (messages s) (inputValue s) (selectedAgents s) b
    (isConnecting s) (agentStatuses s) (sessionId s) (errorBanner s) (wsRef s)
    (sockets s) (timers s).

Definition set_isConnecting (b : bool) (s : State) : State :=
  mkState (messages s) (inputValue s) (selectedAgents s) (isConnected s)
    b (agentStatuses s) (sessionId s) (errorBanner s) (wsRef s)
    (sockets s) (timers s).

Definition set_agentStatuses (f : gmap string string → gmap string string) (s : State) : State :=
  mkState (messages s) (inputValue s) (selectedAgents s) (isConnected s)
    (isConnecting s) (f (agentStatuses s)) (sessionId s) (errorBanner s) (wsRef s)
    (sockets s) (timers s).

Definition set_sessionId (v : option string) (s : State) : State :=
  mkState (messages s) (inputValue s) (selectedAgents s) (isConnected s)
    (isConnecting s) (agentStatuses s) v (errorBanner s) (wsRef s)
    (sockets s) (timers s).

Definition set_error (v : option string) (s : State) : State :=
  mkState (messages s) (inputValue s) (selectedAgents s) (isConnected s)
    (isConnecting s) (agentStatuses s) (sessionId s) v (wsRef s)
    (sockets s) (timers s).

Definition set_wsRef (v : option nat) (s : State) : State :=
  mkState (messages s) (inputValue s) (selectedAgents s) (isConnected s)
    (isConnecting s) (agentStatuses s) (sessionId s) (errorBanner s) v
    (sockets s) (timers s).

Definition set_sockets (f : list WebSocket → list WebSocket) (s : State) : State :=
  mkState (messages s) (inputValue s) (selectedAgents s) (isConnected s)
    (isConnecting s) (agentStatuses s) (sessionId s) (errorBanner s) (wsRef s)
    (f (sockets s)) (timers s).

Definition set_timers (f : list Timer → list Timer) (s : State) : State :=
  mkState (messages s) (inputValue s) (selectedAgents s) (isConnected s)
    (isConnecting s) (agentStatuses s) (sessionId s) (errorBanner s) (wsRef s)
    (sockets s) (f (timers s)).

(** A method call on the object [wsRef.current] refers to. *)
Definition on_current (f : WebSocket → WebSocket) (s : State) : State :=
  match wsRef s with
  | Some i => set_sockets (alter f i) s
  | None => s
  end.

(** [connect]: returns at once when the current socket is open; otherwise
    flags the attempt, clears the error banner, draws a session id from
    the clock, constructs a socket for it and stores it in [wsRef]. *)
Definition connect (now : N) (s : State) : State :=
  if ws_is_open s then s
  else
    let newSessionId := "claude-ui-" +:+ pretty now in
    let ws := mkWebSocket (AUTOGEN_WS_URL +:+ "/" +:+ newSessionId) CONNECTING [] in
    set_wsRef (Some (length (sockets s)))
      (set_sockets (λ h, h ++ [ws])
        (set_sessionId (Some newSessionId)
          (set_error None
            (set_isConnecting true s)))).

(** [ws.onopen] of socket [i]; the socket becomes OPEN and its handler runs. *)
Definition onopen (i : nat) (now : string) (s : State) : State :=
  match sockets s !! i with
  | Some w =>
      match readyState w with
      | CONNECTING =>
          set_messages (λ prev, prev ++ [system "Connected to Multi-Agent Meeting Room" now])
            (set_isConnecting false
              (set_isConnected true
                (set_sockets (<[i := mkWebSocket (url w) OPEN (sent w)]>) s)))
      | _ => s
      end
  | None => s
  end.

(** [ws.onerror] of socket [i]. *)
Definition onerror (i : nat) (s : State) : State :=
  match sockets s !! i with
  | Some _ => set_error (Some "Connection error. Is autogen-conversation server running?") s
  | None => s
  end.

(** [ws.onclose] of socket [i]; the socket becomes CLOSED and its handler
    runs.  A socket closes once. *)
Definition onclose (i : nat) (s : State) : State :=
  match sockets s !! i with
  | Some w =>
      match readyState w with
      | CLOSED => s
      | _ =>
          set_agentStatuses (λ _, ∅)
            (set_isConnecting false
              (set_isConnected false
                (set_sockets (<[i := mkWebSocket (url w) CLOSED (sent w)]>) s)))
      end
  | None => s
  end.

(** [disconnect]. *)
Definition disconnect (s : State) : State :=
  let s1 :=
    match wsRef s with
    | Some _ =>
        let s' := if ws_is_open s then on_current (ws_send end_session) s else s in
        set_wsRef None (on_current ws_close s')
    | None => s
    end in
  set_sessionId None (set_isConnected false s1).

(** The computed property key [[x?.toLowerCase()]]: [undefined] is
    converted to the string "undefined". *)
Definition status_key (x : option string) : string :=
  match x with
  | Some a => toLowerCase a
  | None => "undefined"
  end.

(** [handleWebSocketMessage]; [now] is the receipt time. *)
Definition handleWebSocketMessage (now : string) (data : Envelope) (s : State) : State :=
  let t := e_type data in
  if decide (t = "message") then
    set_agentStatuses (λ prev, <[status_key (e_sender data) := "idle"]> prev)
      (set_messages (λ prev, prev ++
         [agent (e_sender data) (e_content data) (or_default (e_timestamp data) now)]) s)
  else if decide (t = "status") then
    set_agentStatuses (λ prev, <[status_key (e_agent data) := e_status data]> prev) s
  else if decide (t = "error") then
    set_messages (λ prev, prev ++
      [error (or_default (e_message data) "Unknown error") now]) s
  else if decide (t = "session_started") then
    set_messages (λ prev, prev ++
      [system ("Session started with agents: " +:+
                 match e_agents data with
                 | Some l => join ", " l
                 | None => "undefined"
                 end) now]) s
  else if decide (t = "action_result") then
    set_messages (λ prev, prev ++
      [action (e_action data) (e_result data) (e_success data) now]) s
  else s.

(** [ws.onmessage] of socket [i]; [None] is a frame [JSON.parse] rejects. *)
Definition onmessage (i : nat) (now : string) (frame : option Envelope) (s : State) : State :=
  match sockets s !! i, frame with
  | Some _, Some data => handleWebSocketMessage now data s
  | _, _ => s
  end.

Definition SESSION_START_GRACE : N := 500.

(** [startSession]. *)
Definition startSession (now : N) (s : State) : State :=
  if ws_is_open s then
    on_current (ws_send (start_session (selectedAgents s))) s
  else
    set_timers (λ q, q ++ [mkTimer SESSION_START_GRACE (selectedAgents s)])
      (connect now s).

(** The callback [startSession] hands to [setTimeout]. *)
Definition startSession_timeout (t : Timer) (s : State) : State :=
  if ws_is_open s then
    on_current (ws_send (start_session (captured_agents t))) s
  else s.

(** The event loop runs the [k]-th pending timer. *)
Definition fire_timer (k : nat) (s : State) : State :=
  match timers s !! k with
  | Some t => startSession_timeout t (set_timers (delete k) s)
  | None => s
  end.

(** [newStatuses] as [forEach] fills it. *)
Definition newStatuses (agents : list string) : gmap string string :=
  foldl (λ m a, <[a := "thinking"]> m) ∅ agents.

(** [sendMessage]. *)
Definition sendMessage (now : string) (s : State) : State :=
  if bool_decide (trim (inputValue s) = "") || negb (ws_is_open s) then s
  else
    let userMessage := user (trim (inputValue s)) now in
    set_agentStatuses (λ _, newStatuses (selectedAgents s))
      (set_inputValue ""
        (on_current (ws_send (user_message (trim (inputValue s))))
          (set_messages (λ prev, prev ++ [userMessage]) s))).

(** [toggleAgent]'s updater. *)
Definition toggleAgent (agentId : string) (prev : list string) : list string :=
  if includes prev agentId then filter (λ id, id ≠ agentId) prev
  else prev ++ [agentId].

(** A click on an agent's selector button: the button carries
    [disabled={isConnected}], and a disabled button dispatches no click. *)
Definition click_agent (agentId : string) (s : State) : State :=
  if isConnected s then s
  else set_selectedAgents (toggleAgent agentId) s.

(** What can happen to the component, one event at a time. *)
Inductive Event : Type :=
| EvStartSession (now : N)
| EvDisconnect
| EvSendMessage (now : string)
| EvInput (v : string)
| EvClickAgent (agentId : string)
| EvTimer (k : nat)
| EvOpen (i : nat) (now : string)
| EvError (i : nat)
| EvClose (i : nat)
| EvMessage (i : nat) (now : string) (frame : option Envelope).

Definition step (s : State) (e : Event) : State :=
  match e with
  | EvStartSession now => startSession now s
  | EvDisconnect => disconnect s
  | EvSendMessage now => sendMessage now s
  | EvInput v => set_inputValue v s
  | EvClickAgent a => click_agent a s
  | EvTimer k => fire_timer k s
  | EvOpen i now => onopen i now s
  | EvError i => onerror i s
  | EvClose i => onclose i s
  | EvMessage i now frame => onmessage i now frame s
  end.

Definition run (s : State) (es : list Event) : State := foldl step s es.

(** Between [s] and [s'] the socket [wsRef.current] of [s], open at the
    time, accepted the frame [o] and nothing else; no other socket was
    touched. *)
Definition emits (s s' : State) (o : Outbound) : Prop :=
  ∃ i w, wsRef s = Some i ∧ sockets s !! i = Some w ∧ readyState w = OPEN ∧
         sockets s' = <[i := mkWebSocket (url w) OPEN (sent w ++ [o])]> (sockets s).

(** The four [type]s whose case calls [setMessages]. *)
Definition appends (data : Envelope) : bool :=
  bool_decide (e_type data ∈ ["message"; "error"; "session_started"; "action_result"]).

(** The inbound frames of a session, each with its receipt time, handled
    in arrival order. *)
Definition dispatch (s : State) (frames : list (string * Envelope)) : State :=
  foldl (λ acc f, handleWebSocketMessage f.1 f.2 acc) s frames.

(** The Start Session button is rendered while [!isConnected] and is
    disabled when no agent is selected or while [isConnecting]. *)
Definition start_enabled (s : State) : bool :=
  negb (isConnected s) && negb (bool_decide (selectedAgents s = []) || isConnecting s).

(** The End Session button is rendered while [isConnected]. *)
Definition end_enabled (s : State) : bool := isConnected s.

(** Whether the view lets the user cause [e]; what sockets and timers do
    is up to the environment. *)
Definition enabled (s : State) (e : Event) : bool :=
  match e with
  | EvStartSession _ => start_enabled s
  | EvDisconnect => end_enabled s
  | _ => true
  end.

(** The states a mounted component can be in. *)
Inductive reachable : State → Prop :=
| reach_initial : reachable initial
| reach_step (s : State) (e : Event) :
    reachable s → enabled s e = true → reachable (step s e).

End MultiAgentChat.

(** ** IntegrationDashboard.jsx *)

Module IntegrationDashboard.
Import Js.

(** An entry of [SERVICES]; of [endpoints] only [health] is read. *)
Record Service : Type := mkService {
  id : string;
  name : string;
  description : string;
  color : string;
  health : string
}.

Definition SERVICES : list Service :=
  [ mkService "news-podcaster" "News Podcaster" "Podcast generation pipeline"
      "#7C3AED" "http://localhost:8080/api/health";
    mkService "genai-gateway" "GenAI Gateway" "Multi-provider LLM API"
      "#3B82F6" "http://localhost:8000/api/v1/health";
    mkService "n8n" "n8n Automation" "Workflow automation platform"
      "#FF6D5A" "http://localhost:5678/healthz";
    mkService "claudecodeui" "Claude Code UI" "This application"
      "#10B981" "/health" ].

Definition PROVIDERS_URL : string := "http://localhost:8000/api/v1/providers".
Definition STATISTICS_URL : string := "http://localhost:8000/api/v1/statistics".
Definition RUNS_URL : string := "http://localhost:8080/api/runs?limit=5".

(** *** The network, as the code meets it *)

(** A thrown value: [err.name], [err.message]. *)
Record JsError : Type := mkError {
  err_name : string;
  err_message : string
}.

Definition AbortError : JsError :=
  mkError "AbortError" "The operation was aborted.".

Definition TypeError (msg : string) : JsError := mkError "TypeError" msg.

(** What reading a response body to the end as JSON comes to: the parsed
    value, a rejection (a [SyntaxError] for text that is not JSON, a
    network error while reading), or a body that never ends. *)
Inductive Body : Type :=
| BodyJson (data : JsVal)
| BodyRejects (e : JsError)
| BodyStalls.

Record Response : Type := mkResponse {
  status : N;
  body : Body
}.

(** [response.ok]: the status is in the range 200-299. *)
Definition ok (r : Response) : bool :=
  (200 <=? status r)%N && (status r <=? 299)%N.

(** What a server does with one request: response headers after some
    milliseconds, a transport failure after some milliseconds, or
    nothing at all. *)
Inductive Fetch : Type :=
| Responds (after : N) (r : Response)
| Fails (after : N) (e : JsError)
| Silent.

(** The behaviour of every address during one refresh cycle. *)
Definition Network : Type := string → Fetch.

(** The two clocks [checkServiceHealth] reads, in milliseconds. *)
Record Clock : Type := mkClock {
  date_now : Z;
  performance_now : Z
}.

(** *** Component state *)

Inductive Status : Type := online | error | timeout | offline.

#[global] Instance Status_eq_dec : EqDecision Status.
Proof. solve_decision. Defined.

(** The object [checkServiceHealth] resolves to. *)
Record ProbeResult : Type := mkProbeResult {
  p_status : Status;
  p_data : option JsVal;
  p_error : option string;
  p_latency : option Z
}.

(** The [useState] cells, and the addresses requested so far, oldest
    first. *)
Record State : Type := mkState {
  serviceStatuses : gmap string ProbeResult;
  gatewayStats : option JsVal;
  gatewayProviders : JsVal;
  podcastRuns : JsVal;
  isRefreshing : bool;
  lastUpdated : option Z;
  requests : list string
}.

Definition initial : State :=
  mkState ∅ None (JArr []) (JArr []) false None [].

(** *** Asynchronous functions *)

(** How a call ends: it returns, it throws, or it waits on a promise
    that never settles. *)
Inductive Outcome (A : Type) : Type :=
| Done (a : A)
| Threw (e : JsError)
| Stuck.

Arguments Done {A} a.
Arguments Threw {A} e.
Arguments Stuck {A}.

(** An async function body: it reads and updates the state, and ends in
    an outcome; the state it returns holds the updates made up to there. *)
Definition Async (A : Type) : Type := State → Outcome A * State.

Definition ret {A} (a : A) : Async A := λ s, (Done a, s).

Definition bind {A B} (m : Async A) (k : A → Async B) : Async B :=
  λ s, match m s with
       | (Done a, s') => k a s'
       | (Threw e, s') => (Threw e, s')
       | (Stuck, s') => (Stuck, s')
       end.

Definition throw {A} (e : JsError) : Async A := λ s, (Threw e, s).

(** [try { m } catch (err) { h err }]. *)
Definition try_catch {A} (m : Async A) (h : JsError → Async A) : Async A :=
  λ s, match m s with
       | (Threw e, s') => h e s'
       | r => r
       end.

Notation "'let*' x ':=' m 'in' k" := (bind m (λ x, k))
  (at level 10, x binder, m at level 200, k at level 200).

Definition update (f : State → State) : Async unit := λ s, (Done tt, f s).

Definition setServiceStatuses (v : gmap string ProbeResult) : Async unit :=
  update (λ s, mkState v (gatewayStats s) (gatewayProviders s) (podcastRuns s)
                 (isRefreshing s) (lastUpdated s) (requests s)).

Definition setGatewayStats (v : JsVal) : Async unit :=
  update (λ s, mkState (serviceStatuses s) (Some v) (gatewayProviders s) (podcastRuns s)
                 (isRefreshing s) (lastUpdated s) (requests s)).

Definition setGatewayProviders (v : JsVal) : Async unit :=
  update (λ s, mkState (serviceStatuses s) (gatewayStats s) v (podcastRuns s)
                 (isRefreshing s) (lastUpdated s) (requests s)).

Definition setPodcastRuns (v : JsVal) : Async unit :=
  update (λ s, mkState (serviceStatuses s) (gatewayStats s) (gatewayProviders s) v
                 (isRefreshing s) (lastUpdated s) (requests s)).

Definition setIsRefreshing (v : bool) : Async unit :=
  update (λ s, mkState (serviceStatuses s) (gatewayStats s) (gatewayProviders s)
                 (podcastRuns s) v (lastUpdated s) (requests s)).

Definition setLastUpdated (v : Z) : Async unit :=
  update (λ s, mkState (serviceStatuses s) (gatewayStats s) (gatewayProviders s)
                 (podcastRuns s) (isRefreshing s) (Some v) (requests s)).

Definition request (url : string) : Async unit :=
  update (λ s, mkState (serviceStatuses s) (gatewayStats s) (gatewayProviders s)
                 (podcastRuns s) (isRefreshing s) (lastUpdated s) (requests s ++ [url])).

(** [await fetch(url)]: nothing bounds the wait. *)
Definition fetch (net : Network) (url : string) : Async Response :=
  let* _ := request url in
  λ s, match net url with
       | Responds _ r => (Done r, s)
       | Fails _ e => (Threw e, s)
       | Silent => (Stuck, s)
       end.

(** [await fetch(url, { signal })] with [setTimeout(() => controller.abort(), limit)]
    pending: whatever has not arrived when the timer runs is cut off by
    an [AbortError]. *)
Definition fetch_with_abort (net : Network) (limit : N) (url : string) : Async Response :=
  let* _ := request url in
  λ s, match net url with
       | Responds after r => if (after <? limit)%N then (Done r, s) else (Threw AbortError, s)
       | Fails after e => if (after <? limit)%N then (Threw e, s) else (Threw AbortError, s)
       | Silent => (Threw AbortError, s)
       end.

(** [await response.json()], with no timer pending. *)
Definition json (r : Response) : Async JsVal :=
  λ s, match body r with
       | BodyJson data => (Done data, s)
       | BodyRejects e => (Threw e, s)
       | BodyStalls => (Stuck, s)
       end.

(** Property access [v.k]. *)
Fixpoint own_property (k : string) (l : list (string * JsVal)) : JsVal :=
  match l with
  | [] => JUndefined
  | (k', v) :: r => if decide (k' = k) then v else own_property k r
  end.

Definition prop (k : string) (v : JsVal) : Async JsVal :=
  match v with
  | JUndefined | JNull => throw (TypeError "Cannot read properties")
  | JObj l => ret (own_property k l)
  | _ => ret JUndefined
  end.

Definition truthy (v : JsVal) : bool :=
  match v with
  | JUndefined | JNull | JBool false | JNum 0 | JStr EmptyString => false
  | _ => true
  end.

(** [v || d]. *)
Definition or_else (v d : JsVal) : JsVal := if truthy v then v else d.

Definition PROBE_TIMEOUT : N := 5000.

(** [checkServiceHealth].  [clearTimeout] runs as soon as [fetch] has
    resolved, before the body is read. *)
Definition checkServiceHealth (net : Network) (clock : Clock) (service : Service)
  : Async ProbeResult :=
  try_catch
    (let* response := fetch_with_abort net PROBE_TIMEOUT (health service) in
     if ok response then
       let* data := json response in
       ret (mkProbeResult online (Some data) None
              (Some (date_now clock - performance_now clock)%Z))
     else
       ret (mkProbeResult error None (Some ("HTTP " +:+ pretty (status response))) None))
    (λ err,
       if decide (err_name err = "AbortError") then
         ret (mkProbeResult timeout None (Some "Request timeout") None)
       else
         ret (mkProbeResult offline None (Some (err_message err)) None)).

(** [fetchGatewayDetails]. *)
Definition fetchGatewayDetails (net : Network) : Async unit :=
  try_catch
    (let* providersResp := fetch net PROVIDERS_URL in
     let* _ :=
       if ok providersResp then
         let* data := json providersResp in
         let* providers := prop "providers" data in
         setGatewayProviders (or_else providers (JArr []))
       else ret tt in
     let* statsResp := fetch net STATISTICS_URL in
     if ok statsResp then
       let* data := json statsResp in
       setGatewayStats data
     else ret tt)
    (λ _, ret tt).

(** [fetchPodcastRuns]. *)
Definition fetchPodcastRuns (net : Network) : Async unit :=
  try_catch
    (let* response := fetch net RUNS_URL in
     if ok response then
       let* data := json response in
       setPodcastRuns (or_else data (JArr []))
     else ret tt)
    (λ _, ret tt).

(** The [for (const service of SERVICES)] loop of [refreshAll]. *)
Fixpoint probe_each (net : Network) (clock : Clock) (services : list Service)
    (statuses : gmap string ProbeResult) : Async (gmap string ProbeResult) :=
  match services with
  | [] => ret statuses
  | service :: rest =>
      let* r := checkServiceHealth net clock service in
      probe_each net clock rest (<[id service := r]> statuses)
  end.

(** [statuses[k]?.status === 'online']. *)
Definition is_online (statuses : gmap string ProbeResult) (k : string) : bool :=
  match statuses !! k with
  | Some r => bool_decide (p_status r = online)
  | None => false
  end.

(** [refreshAll]; [now] is the [new Date()] it ends with. *)
Definition refreshAll (net : Network) (clock : Clock) (now : Z) : Async unit :=
  let* _ := setIsRefreshing true in
  let* statuses := probe_each net clock SERVICES ∅ in
  let* _ := setServiceStatuses statuses in
  let* _ := if is_online statuses "genai-gateway" then fetchGatewayDetails net else ret tt in
  let* _ := if is_online statuses "news-podcaster" then fetchPodcastRuns net else ret tt in
  let* _ := setLastUpdated now in
  setIsRefreshing false.

(** A probe of [f] ends: it is not an in-time 2xx response whose body
    never ends. *)
Definition probe_settles (f : Fetch) : bool :=
  match f with
  | Responds after r =>
      negb ((after <? PROBE_TIMEOUT)%N && ok r &&
            match body r with BodyStalls => true | _ => false end)
  | _ => true
  end.

(** A request made without a timer ends. *)
Definition fetch_settles (f : Fetch) : bool :=
  match f with
  | Responds _ r => negb (ok r && match body r with BodyStalls => true | _ => false end)
  | Fails _ _ => true
  | Silent => false
  end.

(** What [checkServiceHealth] makes of a caught error. *)
Definition caught (err : JsError) : ProbeResult :=
  if decide (err_name err = "AbortError") then
    mkProbeResult timeout None (Some "Request timeout") None
  else
    mkProbeResult offline None (Some (err_message err)) None.

(** The probe of a server behaviour, case by case. *)
Definition probe_outcome (clock : Clock) (f : Fetch) : Outcome ProbeResult :=
  match f with
  | Responds after r =>
      if (after <? PROBE_TIMEOUT)%N then
        if ok r then
          match body r with
          | BodyJson data =>
              Done (mkProbeResult online (Some data) None
                      (Some (date_now clock - performance_now clock)%Z))
          | BodyRejects e => Done (caught e)
          | BodyStalls => Stuck
          end
        else Done (mkProbeResult error None (Some ("HTTP " +:+ pretty (status r))) None)
      else Done (caught AbortError)
  | Fails after e =>
      if (after <? PROBE_TIMEOUT)%N then Done (caught e) else Done (caught AbortError)
  | Silent => Done (caught AbortError)
  end.

(** The result of a probe that ends. *)
Definition probe_result (clock : Clock) (f : Fetch) : ProbeResult :=
  match probe_outcome clock f with
  | Done r => r
  | _ => caught AbortError
  end.

(** The state with one more address in the request log. *)
Definition logged (urls : list string) (s : State) : State :=
  mkState (serviceStatuses s) (gatewayStats s) (gatewayProviders s)
    (podcastRuns s) (isRefreshing s) (lastUpdated s) (requests s ++ urls).

End IntegrationDashboard.

(** * Properties of the chat session controller *)

Module MultiAgentChatSpec.
Import Js MultiAgentChat.

(** ** Sockets *)

Lemma current_open_inv (s : State) :
  ws_is_open s = true →
  ∃ i w, wsRef s = Some i ∧ sockets s !! i = Some w ∧ readyState w = OPEN.
Proof.
  unfold ws_is_open, current. intros H.
  destruct (wsRef s) as [i|] eqn:Hi; [|done].
  destruct (sockets s !! i) as [w|] eqn:Hw; [|done].
  exists i, w. split_and!; [done..|]. by apply bool_decide_eq_true in H.
Qed.

Lemma alter_as_insert {A} (f : A → A) (l : list A) (i : nat) (x : A) :
  l !! i = Some x → alter f i l = <[i := f x]> l.
Proof.
  intros H. apply list_eq. intros j.
  destruct (decide (i = j)) as [->|Hne].
  - rewrite list_lookup_alter_eq, H. simpl.
    symmetry. apply list_lookup_insert_eq. by eapply lookup_lt_Some.
  - by rewrite list_lookup_alter_ne, list_lookup_insert_ne.
Qed.

Lemma send_on_open (o : Outbound) (s : State) :
  ws_is_open s = true → emits s (on_current (ws_send o) s) o.
Proof.
  intros H. destruct (current_open_inv s H) as (i & w & Hi & Hw & Hr).
  exists i, w. split_and!; [done..|].
  unfold on_current. rewrite Hi. simpl.
  rewrite (alter_as_insert _ _ _ _ Hw). unfold ws_send. by rewrite Hr.
Qed.

(** ** Connect *)

(** While no socket is open, [connect] always constructs a socket, even
    when an earlier attempt has not settled. *)
Lemma connect_when_not_open (now : N) (s : State) :
  ws_is_open s = false →
  ∃ ws, readyState ws = CONNECTING ∧ sent ws = [] ∧
        sockets (connect now s) = sockets s ++ [ws] ∧
        wsRef (connect now s) = Some (length (sockets s)) ∧
        isConnecting (connect now s) = true ∧
        outstanding (connect now s) = S (outstanding s).
Proof.
  intros H. unfold connect. rewrite H.
  exists (mkWebSocket (AUTOGEN_WS_URL +:+ "/" +:+ "claude-ui-" +:+ pretty now) CONNECTING []).
  split_and!; [reflexivity..|].
  unfold outstanding. simpl. rewrite filter_app, length_app. simpl. lia.
Qed.

Lemma connect_frame (now : N) (s : State) :
  timers (connect now s) = timers s ∧
  selectedAgents (connect now s) = selectedAgents s ∧
  messages (connect now s) = messages s ∧
  agentStatuses (connect now s) = agentStatuses s.
Proof. unfold connect. by destruct (ws_is_open s). Qed.


Definition connected_state : State :=
  run initial [EvStartSession 1000; EvOpen 0 "t0"].



(** ** SendUserMessage *)

Lemma newStatuses_from (agents : list string) (m : gmap string string) (a : string) :
  foldl (λ m a, <[a := "thinking"]> m) m agents !! a =
  if bool_decide (a ∈ agents) then Some "thinking" else m !! a.
Proof.
  revert m. induction agents as [|b agents IH]; intros m; simpl.
  - done.
  - rewrite IH. destruct (decide (a = b)) as [->|Hne].
    + rewrite lookup_insert_eq, (bool_decide_eq_true_2 (b ∈ b :: agents)) by set_solver.
      by case_bool_decide.
    + rewrite lookup_insert_ne by done.
      destruct (decide (a ∈ agents)) as [Hin|Hnin].
      * rewrite !bool_decide_eq_true_2; [done | by right | done].
      * rewrite !bool_decide_eq_false_2; [done | | done].
        by intros [?|?]%elem_of_cons.
Qed.

Lemma newStatuses_lookup (agents : list string) (a : string) :
  newStatuses agents !! a = if bool_decide (a ∈ agents) then Some "thinking" else None.
Proof. unfold newStatuses. by rewrite newStatuses_from, lookup_empty. Qed.

(** C2, as amended.  When the trimmed input is not empty and the socket
    in [wsRef] is open, [sendMessage] appends exactly one [user] message
    to the log, hands exactly one [user_message] frame to that socket,
    clears the input, and replaces the status map by a fresh one: every
    selected agent is [thinking] and no other agent has an entry. *)
Theorem sendMessage_effects (now : string) (s : State) :
  trim (inputValue s) ≠ "" →
  ws_is_open s = true →
  let s' := sendMessage now s in
  messages s' = messages s ++ [user (trim (inputValue s)) now] ∧
  emits s s' (user_message (trim (inputValue s))) ∧
  inputValue s' = "" ∧
  selectedAgents s' = selectedAgents s ∧
  (∀ a, a ∈ selectedAgents s → agentStatuses s' !! a = Some "thinking") ∧
  (∀ a, a ∉ selectedAgents s → agentStatuses s' !! a = None).
Proof.
  intros Htext Hopen s'. subst s'. unfold sendMessage.
  rewrite (bool_decide_eq_false_2 _ Htext), Hopen. simpl.
  pose proof (send_on_open (user_message (trim (inputValue s)))
                (set_messages (λ prev, prev ++ [user (trim (inputValue s)) now]) s))
    as Hsend.
  split_and!.
  - unfold on_current. simpl. by destruct (wsRef s).
  - destruct (Hsend Hopen) as (i & w & Hi & Hw & Hr & Hs).
    exists i, w. split_and!; [done..|]. exact Hs.
  - done.
  - unfold on_current. simpl. by destruct (wsRef s).
  - intros a Ha. rewrite newStatuses_lookup. by rewrite bool_decide_eq_true_2.
  - intros a Ha. rewrite newStatuses_lookup. by rewrite bool_decide_eq_false_2.
Qed.

(** A session whose server has reported an agent outside the selection. *)
Definition status_of (a st : string) : Envelope :=
  mkEnvelope "status" None JUndefined None (Some a) st None None
    JUndefined JUndefined JUndefined.

Definition message_from (a : string) (body : string) : Envelope :=
  mkEnvelope "message" (Some a) (JStr body) None None "" None None
    JUndefined JUndefined JUndefined.

Definition typing_state : State :=
  run initial
    [EvStartSession 1000; EvOpen 0 "t0";
     EvMessage 0 "t1" (Some (status_of "Ollama" "thinking"));
     EvInput " hello "].

Lemma sendMessage_effects_witness :
  trim (inputValue typing_state) ≠ "" ∧
  ws_is_open typing_state = true ∧
  messages (sendMessage "t2" typing_state) =
    messages typing_state ++ [user "hello" "t2"].
Proof.
  split_and!; [by vm_compute | reflexivity |].
  apply (sendMessage_effects "t2" typing_state); [by vm_compute | reflexivity].
Defined.

(** C2, as stated, fails on its frame clause: [sendMessage] does not
    update the status map, it stores a new one.  Here "ollama" is not
    selected and has an entry, the session is connected and the input is
    not blank; after the call the entry is gone. *)
Lemma sendMessage_drops_unselected :
  connState typing_state = connected ∧
  ws_is_open typing_state = true ∧
  trim (inputValue typing_state) = "hello" ∧
  ("ollama" ∉ selectedAgents typing_state) ∧
  agentStatuses typing_state !! "ollama" = Some "thinking" ∧
  agentStatuses (sendMessage "t2" typing_state) !! "ollama" = None.
Proof.
  split_and!; try reflexivity.
  apply (bool_decide_eq_false_1 _). reflexivity.
Qed.

(** ** StartSession *)

Lemma delete_last {A} (l : list A) (x : A) : delete (length l) (l ++ [x]) = l.
Proof. induction l as [|y l IH]; simpl; [done|]. by rewrite IH. Qed.

(** [startSession] called while no socket is open, with nothing else
    happening but the socket opening or not: it makes a connection
    attempt, sends nothing itself and arms one timer of 500 ms that holds
    the agents selected at the call.  If the new socket has opened when
    the timer runs, one [start_session] frame with those agents is handed
    to it; if the timer runs while the attempt has not opened, nothing is
    sent and the state is the one [connect] left.  The callback looks at
    the socket [wsRef] holds when it runs, whichever call made it. *)
Theorem startSession_when_not_open (now : N) (t0 : string) (s : State) :
  ws_is_open s = false →
  let s1 := startSession now s in
  let i := length (sockets s) in
  let k := length (timers s) in
  let t := mkTimer 500 (selectedAgents s) in
  (∃ ws, readyState ws = CONNECTING ∧ sent ws = [] ∧
         sockets s1 = sockets s ++ [ws]) ∧
  wsRef s1 = Some i ∧
  isConnecting s1 = true ∧
  timers s1 = timers s ++ [t] ∧
  emits (onopen i t0 s1) (fire_timer k (onopen i t0 s1))
        (start_session (selectedAgents s)) ∧
  fire_timer k s1 = connect now s ∧
  (∀ s2, ws_is_open s2 = true →
         emits s2 (startSession_timeout t s2) (start_session (selectedAgents s))) ∧
  (∀ s2, ws_is_open s2 = false → startSession_timeout t s2 = s2).
Proof.
  intros Hclosed s1 i k t. subst s1 i k t.
  destruct (connect_when_not_open now s Hclosed)
    as (ws & Hrs & Hsent & Hsock & Href & Hflag & _).
  assert (Hnotopen : ws_is_open (connect now s) = false).
  { unfold ws_is_open, current. rewrite Href, Hsock.
    rewrite lookup_app_r, Nat.sub_diag by lia. simpl. by rewrite Hrs. }
  destruct (connect_frame now s) as (Htim & _).
  unfold startSession. rewrite Hclosed. simpl.
  split_and!.
  - by exists ws.
  - exact Href.
  - exact Hflag.
  - by rewrite Htim.
  - unfold onopen. simpl. rewrite Hsock.
    rewrite lookup_app_r, Nat.sub_diag by lia. simpl. rewrite Hrs.
    unfold fire_timer. simpl. rewrite Htim.
    rewrite lookup_app_r, Nat.sub_diag by lia. simpl.
    unfold startSession_timeout.
    match goal with |- emits ?a (if ws_is_open ?b then _ else _) _ =>
      assert (Hopen : ws_is_open b = true)
    end.
    { unfold ws_is_open, current. simpl. rewrite Href, Hsock.
      rewrite list_lookup_insert_eq by (rewrite length_app; simpl; lia). done. }
    rewrite Hopen.
    match goal with |- emits ?a (on_current ?f ?b) ?o =>
      destruct (send_on_open o b Hopen) as (j & w & Hj & Hw & Hr & Hs)
    end.
    exists j, w. split_and!; done.
  - unfold fire_timer. simpl. rewrite Htim.
    rewrite lookup_app_r, Nat.sub_diag by lia. simpl.
    unfold startSession_timeout.
    match goal with |- (if ws_is_open ?b then _ else _) = _ =>
      assert (Hb : ws_is_open b = false) by exact Hnotopen
    end.
    rewrite Hb. unfold set_timers. simpl. rewrite Htim, delete_last, <- Htim.
    by destruct (connect now s).
  - intros s2 Hopen. unfold startSession_timeout. rewrite Hopen.
    by apply send_on_open.
  - intros s2 Hno. unfold startSession_timeout. by rewrite Hno.
Qed.

Lemma startSession_when_not_open_witness :
  ws_is_open initial = false ∧
  sent <$> sockets (run initial [EvStartSession 1000; EvOpen 0 "t0"; EvTimer 0]) =
    [[start_session ["gemini"; "claude"]]] ∧
  timers (startSession 1000 initial) = [mkTimer 500 ["gemini"; "claude"]].
Proof.
  split_and!; [reflexivity | reflexivity |].
  apply (startSession_when_not_open 1000 "t0" initial). reflexivity.
Defined.

(** ** Inbound dispatch *)

Lemma handle_log_length (now : string) (data : Envelope) (s : State) :
  length (messages (handleWebSocketMessage now data s)) =
  length (messages s) + (if appends data then 1 else 0).
Proof.
  unfold handleWebSocketMessage, appends.
  case_bool_decide as Hin; rewrite !elem_of_cons, elem_of_nil in Hin;
    repeat case_decide; simpl; rewrite ?length_app; simpl; try lia;
    exfalso; intuition congruence.
Qed.

(** C4.  After any sequence of inbound envelopes has gone through
    [handleWebSocketMessage], the log is longer by the number of
    envelopes whose type is [message], [error], [session_started] or
    [action_result]; a [status] envelope and an envelope of any other
    type add nothing. *)
Theorem dispatch_log_length (s : State) (frames : list (string * Envelope)) :
  length (messages (dispatch s frames)) =
  length (messages s) + length (filter (λ f, appends f.2 = true) frames).
Proof.
  unfold dispatch. revert s.
  induction frames as [|[now data] frames IH]; intros s; simpl.
  - lia.
  - rewrite IH, handle_log_length, filter_cons. cbn [fst snd].
    destruct (appends data).
    + rewrite decide_True by done. simpl. lia.
    + rewrite decide_False by done. lia.
Qed.

(** ** EndSession *)


Lemma disconnect_flags (s : State) :
  isConnected (disconnect s) = false ∧
  isConnecting (disconnect s) = isConnecting s ∧
  sessionId (disconnect s) = None ∧
  wsRef (disconnect s) = None.
Proof.
  unfold disconnect, on_current.
  destruct (wsRef s) eqn:Hi; [|done].
  destruct (ws_is_open s); simpl; rewrite ?Hi; simpl; by rewrite ?Hi.
Qed.


(** [disconnect] resets [isConnected] but not [isConnecting]: applied to
    a state in which an attempt is in progress it would leave the view in
    [connecting] until the close event arrives.  The view never makes that
    call: its only caller is the End Session button, rendered while
    [isConnected]. *)
Lemma disconnect_while_connecting_not_disconnected :
  let s := connect 1000 initial in
  connState s = connecting ∧
  connState (disconnect s) = connecting ∧
  sessionId (disconnect s) = None ∧
  connState (onclose 0 (disconnect s)) = disconnected.
Proof. by split_and!. Qed.

(** A disconnect in a live session: one [end_session] frame, socket
    closing, and after the close event no status and no connection. *)
Example disconnect_connected_session :
  let s := run typing_state [EvDisconnect] in
  (sent <$> sockets s) = [[end_session]] ∧
  (readyState <$> sockets s) = [CLOSING] ∧
  connState s = disconnected ∧
  agentStatuses s !! "ollama" = Some "thinking" ∧
  agentStatuses (run s [EvClose 0]) = ∅.
Proof. by split_and!. Qed.

(** While the view shows "Connected" no attempt is flagged, so the End
    Session button always leads to [disconnected]. *)
Lemma connected_not_connecting (s : State) :
  reachable s → isConnected s = true → isConnecting s = false.
Proof.
  induction 1 as [|s e Hs IH He]; [done|].
  assert (isConnected s = false ∨ isConnecting s = false) as Hor.
  { destruct (isConnected s); [right; by apply IH|by left]. }
  clear IH.
  destruct e; simpl in *.
  - unfold start_enabled in He. apply andb_true_iff in He as [Hc _].
    apply negb_true_iff in Hc.
    unfold startSession, connect, on_current.
    repeat case_match; simpl; intros; congruence.
  - unfold disconnect, on_current.
    repeat case_match; simpl; intros; congruence.
  - unfold sendMessage, on_current.
    repeat case_match; simpl; intros; destruct Hor; congruence.
  - intros; destruct Hor; congruence.
  - unfold click_agent. repeat case_match; simpl; intros; destruct Hor; congruence.
  - unfold fire_timer, startSession_timeout, on_current.
    repeat case_match; simpl; intros; destruct Hor; congruence.
  - unfold onopen. repeat case_match; simpl; intros; destruct Hor; congruence.
  - unfold onerror. repeat case_match; simpl; intros; destruct Hor; congruence.
  - unfold onclose. repeat case_match; simpl; intros; destruct Hor; congruence.
  - unfold onmessage, handleWebSocketMessage.
    repeat case_match; simpl; intros; destruct Hor; congruence.
Qed.

Lemma end_session_button_disconnects (s : State) :
  reachable s → end_enabled s = true → connState (disconnect s) = disconnected.
Proof.
  intros Hs He. destruct (disconnect_flags s) as (Hc & Hi & _).
  unfold connState. by rewrite Hc, Hi, (connected_not_connecting s Hs He).
Qed.

(** ** ToggleAgentSelection *)

(** [toggleAgent] itself has no guard: the freeze is the button's. *)
Example toggleAgent_unguarded :
  toggleAgent "claude" (selectedAgents connected_state) = ["gemini"].
Proof. reflexivity. Qed.

(** C8.  A click on an agent's selector button in the [connected] state
    changes nothing; otherwise it removes the agent from the selection
    when present and appends it when absent, and no other agent is
    affected. *)
Theorem click_agent_selection (agentId : string) (s : State) :
  let sel := selectedAgents s in
  let sel' := selectedAgents (click_agent agentId s) in
  (connState s = connected → click_agent agentId s = s) ∧
  (connState s ≠ connected →
     (agentId ∈ sel →
        sel' = filter (λ id, id ≠ agentId) sel ∧ agentId ∉ sel') ∧
     (agentId ∉ sel → sel' = sel ++ [agentId]) ∧
     (∀ id, id ≠ agentId → id ∈ sel' ↔ id ∈ sel)).
Proof.
  intros sel sel'. subst sel sel'. unfold click_agent, connState.
  destruct (isConnected s) eqn:Hc.
  - split; [done|]. intros H. by destruct H.
  - split; [by destruct (isConnecting s)|]. intros _. simpl.
    unfold toggleAgent, includes. split_and!.
    + intros Hin. rewrite bool_decide_eq_true_2 by done. split; [done|].
      rewrite list_elem_of_filter. tauto.
    + intros Hout. by rewrite bool_decide_eq_false_2.
    + intros id Hne. case_bool_decide.
      * rewrite list_elem_of_filter. tauto.
      * rewrite elem_of_app, list_elem_of_singleton. tauto.
Qed.

Example click_agent_examples :
  selectedAgents (click_agent "claude" initial) = ["gemini"] ∧
  selectedAgents (click_agent "ollama" initial) = ["gemini"; "claude"; "ollama"] ∧
  selectedAgents (click_agent "claude" connected_state) = ["gemini"; "claude"] ∧
  selectedAgents (click_agent "ollama" (connect 1000 initial)) =
    ["gemini"; "claude"; "ollama"].
Proof. by split_and!. Qed.

(** ** Agent status *)

(** C9.  A [status] envelope for an agent followed by a [message]
    envelope from a sender whose lower-cased name is the same leaves that
    agent [idle], whatever the status was, [thinking] included. *)
Theorem status_then_message_idle
    (now1 now2 : string) (A B : string) (st msg : Envelope) (s : State) :
  e_type st = "status" → e_agent st = Some A → e_status st = "thinking" →
  e_type msg = "message" → e_sender msg = Some B →
  toLowerCase A = toLowerCase B →
  let s1 := handleWebSocketMessage now1 st s in
  let s2 := handleWebSocketMessage now2 msg s1 in
  agentStatuses s1 !! toLowerCase A = Some "thinking" ∧
  agentStatuses s2 !! toLowerCase A = Some "idle".
Proof.
  intros Hst HA Hth Hmsg HB Hkey s1 s2. subst s1 s2.
  unfold handleWebSocketMessage. rewrite Hst, Hmsg, HA, HB, Hth. simpl.
  rewrite Hkey. by rewrite !lookup_insert_eq.
Qed.

Lemma status_then_message_idle_witness :
  agentStatuses
    (dispatch initial [("t1", status_of "Gemini" "thinking");
                       ("t2", message_from "GEMINI" "done")])
    !! "gemini" = Some "idle".
Proof.
  apply (status_then_message_idle "t1" "t2" "Gemini" "GEMINI"
           (status_of "Gemini" "thinking") (message_from "GEMINI" "done") initial);
    reflexivity.
Defined.

(** ** Reachability through the buttons *)

(** The late close event of the previous session's socket resets
    [isConnecting] while a new attempt is in progress; the Start Session
    button is enabled again, and a second click opens a second socket. *)
Lemma two_attempts_through_the_buttons :
  let s1 := run initial [EvStartSession 1000; EvOpen 0 "t0"; EvDisconnect] in
  let s2 := run s1 [EvStartSession 2000; EvClose 0] in
  let s3 := run s2 [EvStartSession 3000] in
  start_enabled initial = true ∧ isConnected (run initial [EvStartSession 1000; EvOpen 0 "t0"]) = true ∧
  start_enabled s1 = true ∧ start_enabled s2 = true ∧
  (readyState <$> sockets s3) = [CLOSED; CONNECTING; CONNECTING] ∧
  outstanding s3 = 2.
Proof. by split_and!. Qed.

End MultiAgentChatSpec.

(** * Properties of the service health poller *)

Module IntegrationDashboardSpec.
Import Js IntegrationDashboard.

(** ** Probe *)

Lemma checkServiceHealth_eval (net : Network) (clock : Clock) (svc : Service) (s : State) :
  checkServiceHealth net clock svc s =
  (probe_outcome clock (net (health svc)), logged [health svc] s).
Proof.
  unfold checkServiceHealth, try_catch, bind, fetch_with_abort, request, update,
    json, ret, probe_outcome, caught, logged.
  simpl. destruct (net (health svc)) as [after r|after e|]; simpl.
  - destruct (after <? PROBE_TIMEOUT)%N; simpl; [|done].
    destruct (ok r); simpl; [|done].
    destruct (body r); simpl; [done| |done].
    by destruct (decide (err_name e = "AbortError")).
  - destruct (after <? PROBE_TIMEOUT)%N; simpl; [|done].
    by destruct (decide (err_name e = "AbortError")).
  - done.
Qed.

(** The four outcomes of a probe that the specification lists. *)
Lemma probe_classification (net : Network) (clock : Clock) (svc : Service) (s : State) :
  let f := net (health svc) in
  let o := (checkServiceHealth net clock svc s).1 in
  (∀ t r data, f = Responds t r → (t < 5000)%N → ok r = true → body r = BodyJson data →
     ∃ lat, o = Done (mkProbeResult online (Some data) None lat)) ∧
  (∀ t r, f = Responds t r → (t < 5000)%N → ok r = false →
     o = Done (mkProbeResult error None (Some ("HTTP " +:+ pretty (status r))) None)) ∧
  (f = Silent ∨ (∃ t r, f = Responds t r ∧ (5000 ≤ t)%N) ∨ (∃ t e, f = Fails t e ∧ (5000 ≤ t)%N) →
     o = Done (mkProbeResult timeout None (Some "Request timeout") None)) ∧
  (∀ t e, f = Fails t e → (t < 5000)%N → err_name e ≠ "AbortError" →
     o = Done (mkProbeResult offline None (Some (err_message e)) None)).
Proof.
  intros f o. subst f o. rewrite checkServiceHealth_eval. simpl.
  unfold probe_outcome, PROBE_TIMEOUT. split_and!.
  - intros t r data -> Ht Hok Hb. rewrite (proj2 (N.ltb_lt _ _) Ht), Hok, Hb. eauto.
  - intros t r -> Ht Hok. by rewrite (proj2 (N.ltb_lt _ _) Ht), Hok.
  - intros [->|[(t & r & -> & Ht)|(t & e & -> & Ht)]]; [done| |];
      by rewrite (proj2 (N.ltb_ge _ _) Ht).
  - intros t e -> Ht Hname. rewrite (proj2 (N.ltb_lt _ _) Ht).
    unfold caught. by rewrite decide_False.
Qed.

(** C5.  The timer that bounds a probe is cleared when the response
    headers arrive, before the body is read: a service that answers in
    time with a 2xx status and then never finishes its body leaves the
    probe waiting for ever, with no status at all. *)
Theorem probe_stalled_body_never_settles
    (net : Network) (clock : Clock) (svc : Service) (s : State) (t : N) (r : Response) :
  net (health svc) = Responds t r → (t < 5000)%N → ok r = true → body r = BodyStalls →
  (checkServiceHealth net clock svc s).1 = Stuck.
Proof.
  intros Hf Ht Hok Hb. rewrite checkServiceHealth_eval. simpl.
  unfold probe_outcome, PROBE_TIMEOUT.
  by rewrite Hf, (proj2 (N.ltb_lt _ _) Ht), Hok, Hb.
Qed.

Definition n8n : Service :=
  mkService "n8n" "n8n Automation" "Workflow automation platform"
    "#FF6D5A" "http://localhost:5678/healthz".

Definition stalling : Network := λ _, Responds 40 (mkResponse 200 BodyStalls).

Lemma probe_stalled_body_never_settles_witness :
  (checkServiceHealth stalling (mkClock 0 0) n8n initial).1 = Stuck.
Proof.
  apply (probe_stalled_body_never_settles stalling (mkClock 0 0) n8n initial
           40 (mkResponse 200 BodyStalls)); reflexivity.
Defined.

(** C10.  A 2xx response whose body is not JSON: [response.json()]
    rejects with a [SyntaxError], the [catch] that serves transport
    failures takes it, and the probe reports [offline] with the parse
    failure's message. *)
Theorem probe_unparseable_body_offline
    (net : Network) (clock : Clock) (svc : Service) (s : State)
    (t : N) (r : Response) (e : JsError) :
  net (health svc) = Responds t r → (t < 5000)%N → ok r = true →
  body r = BodyRejects e → err_name e = "SyntaxError" →
  (checkServiceHealth net clock svc s).1 =
    Done (mkProbeResult offline None (Some (err_message e)) None).
Proof.
  intros Hf Ht Hok Hb Hname. rewrite checkServiceHealth_eval. simpl.
  unfold probe_outcome, PROBE_TIMEOUT.
  rewrite Hf, (proj2 (N.ltb_lt _ _) Ht), Hok, Hb.
  unfold caught. rewrite decide_False; [done|]. by rewrite Hname.
Qed.

Definition not_json : JsError :=
  mkError "SyntaxError" "Unexpected token < in JSON at position 0".

Definition html_page : Network := λ _, Responds 12 (mkResponse 200 (BodyRejects not_json)).

Lemma probe_unparseable_body_offline_witness :
  (checkServiceHealth html_page (mkClock 0 0) n8n initial).1 =
    Done (mkProbeResult offline None
            (Some "Unexpected token < in JSON at position 0") None).
Proof.
  apply (probe_unparseable_body_offline html_page (mkClock 0 0) n8n initial
           12 (mkResponse 200 (BodyRejects not_json)) not_json); reflexivity.
Defined.

(** ** RefreshAll *)

Lemma logged_nil (s : State) : logged [] s = s.
Proof. unfold logged. rewrite app_nil_r. by destruct s. Qed.

Lemma logged_logged (l k : list string) (s : State) :
  logged k (logged l s) = logged (l ++ k) s.
Proof. unfold logged. simpl. by rewrite app_assoc. Qed.

Lemma probe_settles_outcome (clock : Clock) (f : Fetch) :
  probe_settles f = true → probe_outcome clock f = Done (probe_result clock f).
Proof.
  unfold probe_result, probe_outcome, probe_settles.
  destruct f as [after r|after e|]; [|by destruct (after <? PROBE_TIMEOUT)%N|done].
  destruct (after <? PROBE_TIMEOUT)%N; [|done].
  destruct (ok r); [|done]. by destruct (body r).
Qed.

(** The statuses the loop has gathered when it is through [services]. *)
Definition gathered (net : Network) (clock : Clock) (services : list Service)
    (statuses : gmap string ProbeResult) : gmap string ProbeResult :=
  foldl (λ acc svc, <[id svc := probe_result clock (net (health svc))]> acc)
    statuses services.

Lemma probe_each_settled (net : Network) (clock : Clock) (services : list Service)
    (statuses : gmap string ProbeResult) (s : State) :
  (∀ svc, svc ∈ services → probe_settles (net (health svc)) = true) →
  probe_each net clock services statuses s =
  (Done (gathered net clock services statuses), logged (health <$> services) s).
Proof.
  revert statuses s. induction services as [|svc rest IH]; intros statuses s Hall.
  - simpl. by rewrite logged_nil.
  - simpl. unfold bind. rewrite checkServiceHealth_eval.
    rewrite probe_settles_outcome by (apply Hall; left).
    rewrite IH by (intros x Hx; apply Hall; by right).
    by rewrite logged_logged.
Qed.

(** The loop issues the health requests in the order of the list, one
    after the other has ended, and touches nothing else: while it runs,
    the stored status map is the old one. *)
Lemma probe_each_sequential (net : Network) (clock : Clock) (services : list Service)
    (statuses : gmap string ProbeResult) (s : State) :
  ∃ urls, urls `prefix_of` (health <$> services) ∧
          (probe_each net clock services statuses s).2 = logged urls s ∧
          ((probe_each net clock services statuses s).1 = Stuck ∨
           urls = health <$> services).
Proof.
  revert statuses s. induction services as [|svc rest IH]; intros statuses s.
  - exists []. simpl. rewrite logged_nil. split_and!; [done|done|by right].
  - simpl. unfold bind. rewrite checkServiceHealth_eval.
    destruct (probe_outcome clock (net (health svc))) as [r|e|] eqn:Ho.
    + destruct (IH (<[id svc := r]> statuses) (logged [health svc] s))
        as (urls & Hpre & Hst & Hend).
      exists (health svc :: urls). split_and!.
      * by apply prefix_cons.
      * rewrite Hst. by rewrite logged_logged.
      * destruct Hend as [Hs | Hs]; [by left | right; by rewrite Hs].
    + exfalso. revert Ho. unfold probe_outcome.
      destruct (net (health svc)); repeat case_match; done.
    + exists [health svc]. split_and!; [|done|by left].
      apply prefix_cons, prefix_nil.
Qed.

Lemma fetch_settled (net : Network) (url : string) (s : State) :
  fetch_settles (net url) = true →
  (∃ r, fetch net url s = (Done r, logged [url] s) ∧
        (ok r = true → body r ≠ BodyStalls)) ∨
  (∃ e, fetch net url s = (Threw e, logged [url] s)).
Proof.
  unfold fetch, bind, request, update, fetch_settles. simpl.
  destruct (net url) as [after r|after e|]; [| |done].
  - intros H. left. exists r. split; [done|]. intros Hok Hb.
    by rewrite Hok, Hb in H.
  - intros _. right. by exists e.
Qed.

(** What the secondary fetches leave alone. *)
Definition same_refresh (s s' : State) : Prop :=
  serviceStatuses s' = serviceStatuses s ∧ isRefreshing s' = isRefreshing s ∧
  lastUpdated s' = lastUpdated s ∧ ∃ urls, requests s' = requests s ++ urls.

Lemma same_refresh_refl (s : State) : same_refresh s s.
Proof. split_and!; [done..|]. exists []. by rewrite app_nil_r. Qed.

Lemma same_refresh_logged (l : list string) (s s' : State) :
  same_refresh (logged l s) s' → same_refresh s s'.
Proof.
  intros (H1 & H2 & H3 & urls & H4). split_and!; [done..|].
  exists (l ++ urls). rewrite H4. simpl. by rewrite app_assoc.
Qed.

Lemma json_settled (r : Response) (s : State) :
  body r ≠ BodyStalls →
  (∃ data, json r s = (Done data, s)) ∨ (∃ e, json r s = (Threw e, s)).
Proof.
  unfold json. destruct (body r); [left|right|done]; eauto.
Qed.

Lemma fetchPodcastRuns_done (net : Network) (s : State) :
  fetch_settles (net RUNS_URL) = true →
  ∃ s', fetchPodcastRuns net s = (Done tt, s') ∧ same_refresh s s'.
Proof.
  intros H. unfold fetchPodcastRuns, try_catch, bind at 1.
  destruct (fetch_settled net RUNS_URL s H) as [(r & Hf & Hr)|(e & Hf)]; rewrite Hf.
  - destruct (ok r) eqn:Hok.
    + unfold bind.
      destruct (json_settled r (logged [RUNS_URL] s) (Hr eq_refl))
        as [(data & Hj)|(e & Hj)]; rewrite Hj; simpl.
      * eexists. split; [done|]. eapply same_refresh_logged with (l := [RUNS_URL]).
        split_and!; simpl; [done..|]. exists []. by rewrite app_nil_r.
      * eexists. split; [done|].
        eapply same_refresh_logged, same_refresh_refl.
    + simpl. eexists. split; [done|]. eapply same_refresh_logged, same_refresh_refl.
  - simpl. eexists. split; [done|]. eapply same_refresh_logged, same_refresh_refl.
Qed.

Lemma same_refresh_trans (s1 s2 s3 : State) :
  same_refresh s1 s2 → same_refresh s2 s3 → same_refresh s1 s3.
Proof.
  intros (A1 & A2 & A3 & u & A4) (B1 & B2 & B3 & v & B4).
  split_and!; [congruence..|]. exists (u ++ v). rewrite B4, A4. by rewrite app_assoc.
Qed.

Lemma same_refresh_logged_r (l : list string) (s : State) : same_refresh s (logged l s).
Proof. split_and!; [done..|]. by exists l. Qed.

(** [if (resp.ok) { data = await resp.json(); k data }] when the body ends. *)
Lemma read_body_done (r : Response) (k : JsVal → Async unit) (s : State) :
  (ok r = true → body r ≠ BodyStalls) →
  (∀ data s0, ∃ s1, (k data s0 = (Done tt, s1) ∨ ∃ e, k data s0 = (Threw e, s1)) ∧
                    same_refresh s0 s1) →
  ∃ s', ((if ok r then let* data := json r in k data else ret tt) s = (Done tt, s') ∨
         ∃ e, (if ok r then let* data := json r in k data else ret tt) s = (Threw e, s')) ∧
        same_refresh s s'.
Proof.
  intros Hr Hk. destruct (ok r).
  - unfold bind. destruct (json_settled r s (Hr eq_refl)) as [(data & Hj)|(e & Hj)];
      rewrite Hj.
    + apply Hk.
    + exists s. split; [right; by exists e|apply same_refresh_refl].
  - exists s. split; [by left|apply same_refresh_refl].
Qed.

Lemma fetchGatewayDetails_done (net : Network) (s : State) :
  fetch_settles (net PROVIDERS_URL) = true →
  fetch_settles (net STATISTICS_URL) = true →
  ∃ s', fetchGatewayDetails net s = (Done tt, s') ∧ same_refresh s s'.
Proof.
  intros Hp Hs. unfold fetchGatewayDetails, try_catch, bind at 1.
  destruct (fetch_settled net PROVIDERS_URL s Hp) as [(r & Hf & Hr)|(e & Hf)];
    rewrite Hf; [|eexists; split; [done|apply same_refresh_logged_r]].
  unfold bind at 1.
  destruct (read_body_done r
              (λ data, let* providers := prop "providers" data in
                       setGatewayProviders (or_else providers (JArr [])))
              (logged [PROVIDERS_URL] s) Hr) as (s1 & [H1|(e & H1)] & F1).
  { intros data s0. unfold bind, prop.
    destruct data; simpl; eexists; (split; [by eauto|]);
      first [apply same_refresh_refl | split_and!; simpl; [done..|]; exists [];
             by rewrite app_nil_r]. }
  2:{ rewrite H1. eexists. split; [done|].
      eapply same_refresh_trans; [apply same_refresh_logged_r|exact F1]. }
  rewrite H1. unfold bind at 1.
  destruct (fetch_settled net STATISTICS_URL s1 Hs) as [(r2 & Hf2 & Hr2)|(e & Hf2)];
    rewrite Hf2.
  2:{ eexists. split; [done|].
      eapply same_refresh_trans; [apply same_refresh_logged_r|].
      eapply same_refresh_trans; [exact F1|apply same_refresh_logged_r]. }
  destruct (read_body_done r2 setGatewayStats (logged [STATISTICS_URL] s1) Hr2)
    as (s2 & [H2|(e & H2)] & F2).
  { intros data s0. eexists. split; [by left|].
    split_and!; simpl; [done..|]. exists []. by rewrite app_nil_r. }
  all: rewrite H2; eexists; (split; [done|]);
    eapply same_refresh_trans; [apply same_refresh_logged_r|];
    eapply same_refresh_trans; [exact F1|];
    eapply same_refresh_trans; [apply same_refresh_logged_r|exact F2].
Qed.

Lemma SERVICES_lookup (clock : Clock) (net : Network) (svc : Service) :
  svc ∈ SERVICES →
  gathered net clock SERVICES ∅ !! id svc = Some (probe_result clock (net (health svc))).
Proof.
  unfold SERVICES, gathered. simpl. intros H.
  repeat (apply elem_of_cons in H as [-> | H]; simpl;
          [by repeat (first [rewrite lookup_insert_eq | rewrite lookup_insert_ne by done])|]).
  by apply elem_of_nil in H.
Qed.

Lemma bind_done {A B} (m : Async A) (k : A → Async B) (s s' : State) (a : A) :
  m s = (Done a, s') → bind m k s = k a s'.
Proof. unfold bind. by intros ->. Qed.

Lemma refreshAll_run (net : Network) (clock : Clock) (now : Z) (s : State) :
  (∀ svc, svc ∈ SERVICES → probe_settles (net (health svc)) = true) →
  (∀ url, url ∈ [PROVIDERS_URL; STATISTICS_URL; RUNS_URL] → fetch_settles (net url) = true) →
  ∃ s', refreshAll net clock now s = (Done tt, s') ∧
        serviceStatuses s' = gathered net clock SERVICES ∅ ∧
        lastUpdated s' = Some now ∧
        isRefreshing s' = false ∧
        ∃ more, requests s' = requests s ++ (health <$> SERVICES) ++ more.
Proof.
  intros Hprobes Hsec.
  assert (fetch_settles (net PROVIDERS_URL) = true) as Hp by (apply Hsec; set_solver).
  assert (fetch_settles (net STATISTICS_URL) = true) as Hst by (apply Hsec; set_solver).
  assert (fetch_settles (net RUNS_URL) = true) as Hr by (apply Hsec; set_solver).
  set (statuses := gathered net clock SERVICES ∅).
  assert (∀ s1, ∃ s2, (if is_online statuses "genai-gateway"
                       then fetchGatewayDetails net else ret tt) s1 = (Done tt, s2) ∧
                      same_refresh s1 s2) as Hgw.
  { intros s1. destruct (is_online statuses "genai-gateway").
    - by apply fetchGatewayDetails_done.
    - exists s1. split; [done|apply same_refresh_refl]. }
  assert (∀ s2, ∃ s3, (if is_online statuses "news-podcaster"
                       then fetchPodcastRuns net else ret tt) s2 = (Done tt, s3) ∧
                      same_refresh s2 s3) as Hpod.
  { intros s2. destruct (is_online statuses "news-podcaster").
    - by apply fetchPodcastRuns_done.
    - exists s2. split; [done|apply same_refresh_refl]. }
  unfold refreshAll.
  erewrite bind_done by reflexivity.
  erewrite bind_done by (apply probe_each_settled; exact Hprobes).
  fold statuses.
  erewrite bind_done by reflexivity.
  match goal with |- context [bind _ _ ?st] => destruct (Hgw st) as (s2 & H2 & F2) end.
  erewrite bind_done by exact H2.
  destruct (Hpod s2) as (s3 & H3 & F3).
  erewrite bind_done by exact H3.
  erewrite bind_done by reflexivity.
  eexists. split; [reflexivity|].
  destruct (same_refresh_trans _ _ _ F2 F3) as (Hm & _ & _ & more & Hreq).
  simpl. split_and!; [exact Hm|done|done|].
  exists more. rewrite Hreq. simpl. by rewrite <- app_assoc.
Qed.

(** No address answers at all. *)
Definition unplugged : Network := λ _, Silent.

(** Every probe failing: four [timeout] entries, and the refresh ends. *)
Example refreshAll_every_probe_fails :
  let r := refreshAll unplugged (mkClock 0 0) 77 initial in
  r.1 = Done tt ∧
  (p_status <$> serviceStatuses r.2) =
    list_to_map ((λ svc, (id svc, timeout)) <$> SERVICES) ∧
  requests r.2 = health <$> SERVICES.
Proof. by vm_compute. Qed.

(** The gateway is healthy and then says nothing on its provider list. *)
Definition gateway_hangs : Network := λ url,
  if decide (url = PROVIDERS_URL) then Silent
  else Responds 10 (mkResponse 200 (BodyJson (JObj []))).

(** C6, as stated, fails on "every invocation terminates": the secondary
    requests carry no timer.  Here all four probes report [online] and
    the status map is stored, but the request for the provider list is
    never answered: [refreshAll] does not return, the timestamp is never
    set and the refreshing flag stays on. *)
Lemma refreshAll_hangs_on_secondary_fetch :
  let r := refreshAll gateway_hangs (mkClock 0 0) 77 initial in
  r.1 = Stuck ∧
  (p_status <$> serviceStatuses r.2) =
    list_to_map ((λ svc, (id svc, online)) <$> SERVICES) ∧
  lastUpdated r.2 = None ∧
  isRefreshing r.2 = true ∧
  requests r.2 = (health <$> SERVICES) ++ [PROVIDERS_URL].
Proof. by vm_compute. Qed.

(** The probe defect of C5 reaches [refreshAll]: a health response whose
    body never ends stops the loop, and nothing is stored. *)
Example refreshAll_hangs_on_stalled_probe :
  let r := refreshAll stalling (mkClock 0 0) 77 initial in
  r.1 = Stuck ∧ serviceStatuses r.2 = ∅ ∧ lastUpdated r.2 = None ∧
  requests r.2 = ["http://localhost:8080/api/health"].
Proof. by vm_compute. Qed.

End IntegrationDashboardSpec.

(** * Further properties of the chat session controller *)

Module MultiAgentChatMore.
Import Js MultiAgentChat MultiAgentChatSpec.

(** ** The guard of SendMessage *)

(** X1.  [sendMessage] leaves the state exactly as it was if and only if
    the trimmed input is empty or the socket in [wsRef] is not open: the
    guard is the only way out, and a call that passes it always shows. *)
Theorem sendMessage_noop_iff (now : string) (s : State) :
  sendMessage now s = s ↔ trim (inputValue s) = "" ∨ ws_is_open s = false.
Proof.
  unfold sendMessage. split.
  - intros H. destruct (decide (trim (inputValue s) = "")) as [Ht|Ht]; [by left|right].
    destruct (ws_is_open s) eqn:Ho; [|done]. exfalso.
    rewrite (bool_decide_eq_false_2 _ Ht) in H. simpl in H.
    apply (f_equal (λ x, length (messages x))) in H.
    assert (length (messages s ++ [user (trim (inputValue s)) now]) =
            length (messages s)) as Hlen.
    { etrans; [|exact H]. unfold on_current. simpl. by destruct (wsRef s). }
    rewrite length_app in Hlen. simpl in Hlen. lia.
  - intros [Ht|Ho].
    + by rewrite Ht.
    + rewrite Ho. by rewrite orb_true_r.
Qed.

(** ** StartSession on an open socket *)

(** X2.  [startSession] called while the socket in [wsRef] is open hands
    that socket exactly one [start_session] frame with the current
    selection, at once: no timer is armed, no socket is created and no
    other field changes. *)
Theorem startSession_when_open (now : N) (s : State) :
  ws_is_open s = true →
  let s' := startSession now s in
  emits s s' (start_session (selectedAgents s)) ∧
  timers s' = timers s ∧
  length (sockets s') = length (sockets s) ∧
  s' = set_sockets (λ _, sockets s') s.
Proof.
  intros Hopen s'. subst s'. unfold startSession. rewrite Hopen.
  pose proof (send_on_open (start_session (selectedAgents s)) s Hopen) as Hs.
  split_and!; [exact Hs| | |].
  - unfold on_current. by destruct (wsRef s).
  - unfold on_current. destruct (wsRef s); simpl; [|done]. by rewrite length_alter.
  - unfold on_current. destruct (wsRef s); [done|]. by destruct s.
Qed.

Lemma startSession_when_open_witness :
  sent <$> sockets (startSession 2000 connected_state) =
    [[start_session ["gemini"; "claude"]]] ∧
  timers (startSession 2000 connected_state) = timers connected_state.
Proof.
  split; [reflexivity|].
  apply (startSession_when_open 2000 connected_state). reflexivity.
Defined.

(** ** The message log *)

Lemma step_messages (s : State) (e : Event) :
  messages (step s e) = messages s ∨ ∃ m, messages (step s e) = messages s ++ [m].
Proof.
  destruct e; simpl;
    unfold startSession, connect, disconnect, sendMessage, click_agent, fire_timer,
      startSession_timeout, onopen, onerror, onclose, onmessage,
      handleWebSocketMessage, on_current;
    repeat case_match; simpl; eauto.
Qed.

(** X3.  The log is append-only: whatever events occur, the log of before
    is a prefix of the log of after, and each event adds at most one
    entry. *)
Theorem run_messages_append_only (s : State) (es : list Event) :
  ∃ more, messages (run s es) = messages s ++ more ∧ length more ≤ length es.
Proof.
  unfold run. revert s. induction es as [|e es IH]; intros s; simpl.
  - exists []. by rewrite app_nil_r.
  - destruct (IH (step s e)) as (more & Hm & Hl).
    destruct (step_messages s e) as [He|[m He]]; rewrite He in Hm.
    + exists more. split; [done|lia].
    + exists (m :: more). rewrite <- app_assoc in Hm. split; [done|simpl; lia].
Qed.

(** ** The sockets *)

(** The order in which a socket goes through its states. *)
Definition rank (r : ReadyState) : nat :=
  match r with CONNECTING => 0 | OPEN => 1 | CLOSING => 2 | CLOSED => 3 end.

(** What one event can do to the sockets: nothing; construct one; hand
    one frame to the open socket in [wsRef], which stays open or starts
    closing; or move one socket forward in its life. *)
Inductive sockets_step (s : State) (h' : list WebSocket) : Prop :=
| ss_same : h' = sockets s → sockets_step s h'
| ss_new (ws : WebSocket) :
    readyState ws = CONNECTING → sent ws = [] → h' = sockets s ++ [ws] →
    sockets_step s h'
| ss_send (i : nat) (w : WebSocket) (o : Outbound) (rs : ReadyState) :
    wsRef s = Some i → sockets s !! i = Some w → readyState w = OPEN →
    rs = OPEN ∨ rs = CLOSING →
    h' = <[i := mkWebSocket (url w) rs (sent w ++ [o])]> (sockets s) →
    sockets_step s h'
| ss_state (i : nat) (w : WebSocket) (rs : ReadyState) :
    sockets s !! i = Some w → rank (readyState w) ≤ rank rs →
    h' = <[i := mkWebSocket (url w) rs (sent w)]> (sockets s) →
    sockets_step s h'.

Lemma alter_out_of_range {A} (f : A → A) (l : list A) (i : nat) :
  l !! i = None → alter f i l = l.
Proof.
  intros H. apply list_eq. intros j. destruct (decide (i = j)) as [->|Hne].
  - by rewrite list_lookup_alter_eq, H.
  - by rewrite list_lookup_alter_ne.
Qed.

Lemma sockets_step_send (o : Outbound) (s : State) :
  ws_is_open s = true → sockets_step s (sockets (on_current (ws_send o) s)).
Proof.
  intros H. destruct (send_on_open o s H) as (i & w & Hi & Hw & Hr & Hs).
  by eapply (ss_send _ _ i w o OPEN); [..|left|].
Qed.

Lemma sockets_step_ext (s1 s2 : State) (h' : list WebSocket) :
  wsRef s1 = wsRef s2 → sockets s1 = sockets s2 →
  sockets_step s1 h' → sockets_step s2 h'.
Proof.
  intros Hr Hs [H|ws H1 H2 H|i w o rs H1 H2 H3 H4 H|i w rs H1 H2 H];
    rewrite ?Hr, ?Hs in *.
  - by apply ss_same.
  - by eapply ss_new.
  - by eapply ss_send.
  - by eapply ss_state.
Qed.

Lemma sockets_step_close (s : State) :
  ws_is_open s = false → sockets_step s (sockets (on_current ws_close s)).
Proof.
  intros Hno. unfold on_current. destruct (wsRef s) as [i|] eqn:Hi; [|by apply ss_same].
  simpl. destruct (sockets s !! i) as [w|] eqn:Hw.
  - rewrite (alter_as_insert _ _ _ _ Hw). unfold ws_close.
    destruct (readyState w) eqn:Hr.
    + eapply (ss_state _ _ i w CLOSING); [done|rewrite Hr; simpl; lia|done].
    + exfalso. unfold ws_is_open, current in Hno. rewrite Hi, Hw, Hr in Hno.
      by rewrite bool_decide_eq_true_2 in Hno.
    + eapply (ss_state _ _ i w CLOSING); [done|rewrite Hr; simpl; lia|].
      by destruct w; simpl in *; subst.
    + eapply (ss_state _ _ i w CLOSED); [done|rewrite Hr; simpl; lia|].
      by destruct w; simpl in *; subst.
  - rewrite alter_out_of_range by done. by apply ss_same.
Qed.

Lemma sockets_step_disconnect (s : State) :
  sockets_step s (sockets (disconnect s)).
Proof.
  unfold disconnect. destruct (wsRef s) as [i|] eqn:Hi; [|by apply ss_same].
  simpl. destruct (ws_is_open s) eqn:Ho.
  - destruct (current_open_inv s Ho) as (j & w & Hj & Hw & Hr).
    assert (j = i) as -> by congruence.
    eapply (ss_send _ _ i w end_session CLOSING); [done..|by right|].
    unfold on_current. rewrite Hi. simpl. rewrite Hi. simpl.
    rewrite list_alter_alter_eq, (alter_as_insert _ _ _ _ Hw). simpl.
    unfold ws_send, ws_close. rewrite Hr. simpl. done.
  - exact (sockets_step_close s Ho).
Qed.

Lemma step_sockets (s : State) (e : Event) : sockets_step s (sockets (step s e)).
Proof.
  destruct e; simpl.
  - unfold startSession. destruct (ws_is_open s) eqn:Ho.
    + by apply sockets_step_send.
    + simpl. destruct (connect_when_not_open now s Ho) as (ws & Hr & Hs & Hh & _).
      by eapply ss_new.
  - apply sockets_step_disconnect.
  - unfold sendMessage.
    destruct (bool_decide (trim (inputValue s) = "")); simpl; [by apply ss_same|].
    destruct (ws_is_open s) eqn:Ho; simpl; [|by apply ss_same].
    eapply sockets_step_ext; [| |exact (sockets_step_send _ (set_messages _ s) Ho)]; done.
  - by apply ss_same.
  - unfold click_agent. destruct (isConnected s); by apply ss_same.
  - unfold fire_timer. destruct (timers s !! k) as [t|]; [|by apply ss_same].
    unfold startSession_timeout.
    match goal with |- context [ws_is_open ?b] =>
      assert (ws_is_open b = ws_is_open s) as Hb by reflexivity
    end.
    rewrite Hb. destruct (ws_is_open s) eqn:Ho; [|by apply ss_same].
    eapply sockets_step_ext; [| |exact (sockets_step_send _ (set_timers _ s) Ho)]; done.
  - unfold onopen. destruct (sockets s !! i) as [w|] eqn:Hw; [|by apply ss_same].
    destruct (readyState w) eqn:Hr; try by apply ss_same.
    simpl. eapply (ss_state _ _ i w OPEN); [done|rewrite Hr; simpl; lia|done].
  - unfold onerror. destruct (sockets s !! i); by apply ss_same.
  - unfold onclose. destruct (sockets s !! i) as [w|] eqn:Hw; [|by apply ss_same].
    destruct (readyState w) eqn:Hr; try by apply ss_same.
    all: simpl; eapply (ss_state _ _ i w CLOSED); [done|rewrite Hr; simpl; lia|done].
  - unfold onmessage. destruct (sockets s !! i); [|by apply ss_same].
    destruct frame; [|by apply ss_same].
    unfold handleWebSocketMessage. repeat case_match; by apply ss_same.
Qed.

Lemma step_wsRef (s : State) (e : Event) :
  (wsRef (step s e) = wsRef s ∧ length (sockets (step s e)) = length (sockets s)) ∨
  (wsRef (step s e) = None ∧ length (sockets (step s e)) = length (sockets s)) ∨
  (wsRef (step s e) = Some (length (sockets s)) ∧
   length (sockets (step s e)) = S (length (sockets s))).
Proof.
  destruct e; simpl.
  - unfold startSession. destruct (ws_is_open s) eqn:Ho.
    + left. unfold on_current. destruct (wsRef s) eqn:Hi; simpl; [|done].
      by rewrite length_alter.
    + right. right. simpl.
      destruct (connect_when_not_open now s Ho) as (ws & _ & _ & Hs & Hr & _).
      rewrite Hr, Hs, length_app. simpl. split; [done|lia].
  - right. left. split; [apply disconnect_flags|].
    unfold disconnect, on_current. destruct (wsRef s) eqn:Hi; [|done].
    destruct (ws_is_open s); simpl; rewrite ?Hi; simpl; rewrite ?Hi; simpl;
      by rewrite ?length_alter.
  - left. unfold sendMessage.
    destruct (bool_decide (trim (inputValue s) = "") || negb (ws_is_open s)); [done|].
    unfold on_current. simpl. destruct (wsRef s) eqn:Hi; simpl; [|done].
    by rewrite length_alter.
  - by left.
  - left. unfold click_agent. by destruct (isConnected s).
  - left. unfold fire_timer. destruct (timers s !! k); [|done].
    unfold startSession_timeout, on_current.
    match goal with |- context [ws_is_open ?b] => destruct (ws_is_open b) end;
      simpl; [|done].
    destruct (wsRef s) eqn:Hi; simpl; [|done]. by rewrite length_alter.
  - left. unfold onopen. destruct (sockets s !! i); [|done].
    destruct (readyState w); simpl; try done. by rewrite length_insert.
  - left. unfold onerror. by destruct (sockets s !! i).
  - left. unfold onclose. destruct (sockets s !! i); [|done].
    destruct (readyState w); simpl; try done; by rewrite length_insert.
  - left. unfold onmessage. destruct (sockets s !! i); [|done].
    destruct frame; [|done].
    unfold handleWebSocketMessage. by repeat case_decide.
Qed.

Lemma run_wsRef (es : list Event) (s : State) :
  (∀ j, wsRef s = Some j → S j = length (sockets s)) →
  ∀ j, wsRef (run s es) = Some j → S j = length (sockets (run s es)).
Proof.
  unfold run. revert s. induction es as [|e es IH]; intros s Hs; simpl; [done|].
  apply IH. intros j.
  destruct (step_wsRef s e) as [(-> & ->)|[(-> & _)|(-> & ->)]].
  - apply Hs.
  - done.
  - by intros [= <-].
Qed.

(** X4.  [wsRef.current] is written in two places only: [connect] stores
    the socket it has just constructed and [disconnect] stores [null].
    So, whatever events have occurred since mount, [wsRef] holds nothing
    or the socket constructed last, and a frame is only ever handed to
    the socket constructed last: a socket that a later attempt has
    replaced is never written to again. *)
Theorem run_wsRef_newest (es : list Event) :
  let s := run initial es in
  (∀ i, wsRef s = Some i → S i = length (sockets s)) ∧
  (∀ e i w w', sockets s !! i = Some w → sockets (step s e) !! i = Some w' →
               sent w' ≠ sent w → S i = length (sockets s)).
Proof.
  intros s. subst s.
  assert (∀ i, wsRef (run initial es) = Some i →
               S i = length (sockets (run initial es))) as Href.
  { by apply run_wsRef. }
  split; [exact Href|].
  intros e i w w' Hw Hw' Hne. apply Href.
  destruct (step_sockets (run initial es) e)
    as [Hs|ws _ _ Hs|j v o rs Hj Hv Hr _ Hs|j v rs Hv _ Hs]; rewrite Hs in Hw'.
  - congruence.
  - rewrite (lookup_app_l_Some _ _ _ _ Hw) in Hw'. congruence.
  - destruct (decide (j = i)) as [->|Hji]; [done|].
    rewrite list_lookup_insert_ne in Hw' by done. congruence.
  - destruct (decide (j = i)) as [->|Hji].
    + rewrite list_lookup_insert_eq in Hw' by (by eapply lookup_lt_Some).
      assert (v = w) as -> by congruence.
      injection Hw' as <-. done.
    + rewrite list_lookup_insert_ne in Hw' by done. congruence.
Qed.

(** After End Session and a second Start Session the reference is the
    second socket, also once the first has closed. *)
Example run_wsRef_newest_example :
  let s := run initial [EvStartSession 1000; EvOpen 0 "t0"; EvDisconnect;
                        EvStartSession 2000; EvClose 0] in
  wsRef s = Some 1 ∧ length (sockets s) = 2.
Proof. by split. Qed.

(** X5.  No event hands a frame to a socket that is not open, or to a
    socket other than the one in [wsRef]: if what a socket was sent
    differs across one event, that socket was the current one and open
    before the event, and exactly one frame was added. *)
Theorem step_sends_on_open_current
    (s : State) (e : Event) (i : nat) (w w' : WebSocket) :
  sockets s !! i = Some w → sockets (step s e) !! i = Some w' →
  sent w' ≠ sent w →
  wsRef s = Some i ∧ readyState w = OPEN ∧ ∃ o, sent w' = sent w ++ [o].
Proof.
  intros Hw Hw' Hne.
  destruct (step_sockets s e) as [Hs|ws _ _ Hs|j v o rs Hj Hv Hr _ Hs|j v rs Hv _ Hs];
    rewrite Hs in Hw'.
  - congruence.
  - rewrite (lookup_app_l_Some _ _ _ _ Hw) in Hw'. congruence.
  - destruct (decide (j = i)) as [->|Hji].
    + rewrite list_lookup_insert_eq in Hw' by (by eapply lookup_lt_Some).
      assert (v = w) as -> by congruence.
      injection Hw' as <-. split_and!; [done..|]. by exists o.
    + rewrite list_lookup_insert_ne in Hw' by done. congruence.
  - destruct (decide (j = i)) as [->|Hji].
    + rewrite list_lookup_insert_eq in Hw' by (by eapply lookup_lt_Some).
      assert (v = w) as -> by congruence.
      injection Hw' as <-. done.
    + rewrite list_lookup_insert_ne in Hw' by done. congruence.
Qed.

Lemma step_sends_on_open_current_witness :
  wsRef typing_state = Some 0 ∧
  ∃ o, [user_message "hello"] = [] ++ [o].
Proof.
  destruct (step_sends_on_open_current typing_state (EvSendMessage "t2") 0
              (mkWebSocket (AUTOGEN_WS_URL +:+ "/claude-ui-1000") OPEN [])
              (mkWebSocket (AUTOGEN_WS_URL +:+ "/claude-ui-1000") OPEN
                 [user_message "hello"]))
    as (H1 & _ & H2); [reflexivity|reflexivity|discriminate|].
  split; [exact H1|exact H2].
Defined.

(** ** The selection *)

Lemma toggleAgent_NoDup (agentId : string) (prev : list string) :
  NoDup prev → NoDup (toggleAgent agentId prev).
Proof.
  intros H. unfold toggleAgent, includes. case_bool_decide as Hin.
  - by apply NoDup_filter.
  - apply NoDup_app. split_and!; [done| |apply NoDup_singleton].
    intros x Hx Hx'. apply list_elem_of_singleton in Hx'. by subst.
Qed.

Lemma step_selectedAgents (s : State) (e : Event) :
  selectedAgents (step s e) = selectedAgents s ∨
  ∃ a, selectedAgents (step s e) = toggleAgent a (selectedAgents s).
Proof.
  destruct e; simpl;
    unfold startSession, connect, disconnect, sendMessage, click_agent, fire_timer,
      startSession_timeout, onopen, onerror, onclose, onmessage,
      handleWebSocketMessage, on_current;
    repeat case_match; simpl; eauto.
Qed.

(** X6.  The selection never holds an agent twice, whatever sequence of
    events the component has gone through since it was mounted. *)
Theorem run_selection_NoDup (es : list Event) :
  NoDup (selectedAgents (run initial es)).
Proof.
  assert (∀ s, NoDup (selectedAgents s) → NoDup (selectedAgents (run s es))) as H.
  { unfold run. induction es as [|e es IH]; intros s Hs; simpl; [done|].
    apply IH. destruct (step_selectedAgents s e) as [->|[a ->]]; [done|].
    by apply toggleAgent_NoDup. }
  apply H. by apply (bool_decide_unpack _).
Qed.

(** X7.  Toggling the same agent twice gives back the same set of
    agents; when the agent was not selected the list itself is restored,
    and when it was, it has moved to the end. *)
Theorem toggleAgent_twice (agentId : string) (prev : list string) :
  (∀ x, x ∈ toggleAgent agentId (toggleAgent agentId prev) ↔ x ∈ prev) ∧
  (agentId ∉ prev → toggleAgent agentId (toggleAgent agentId prev) = prev) ∧
  (agentId ∈ prev →
     toggleAgent agentId (toggleAgent agentId prev) =
       filter (λ id, id ≠ agentId) prev ++ [agentId]).
Proof.
  assert (agentId ∉ prev → toggleAgent agentId (toggleAgent agentId prev) = prev) as Hout.
  { intros Hn. unfold toggleAgent, includes.
    rewrite (bool_decide_eq_false_2 _ Hn).
    rewrite bool_decide_eq_true_2 by (apply elem_of_app; right; by left).
    rewrite filter_app, filter_cons, decide_False by (by intros []).
    rewrite filter_nil, app_nil_r.
    clear -Hn. induction prev as [|y prev IH]; [done|].
    rewrite filter_cons, decide_True by (intros ->; apply Hn; by left).
    f_equal. apply IH. intros H. apply Hn. by right. }
  assert (agentId ∈ prev →
          toggleAgent agentId (toggleAgent agentId prev) =
            filter (λ id, id ≠ agentId) prev ++ [agentId]) as Hin.
  { intros Hi. unfold toggleAgent, includes.
    rewrite (bool_decide_eq_true_2 _ Hi).
    rewrite bool_decide_eq_false_2; [done|].
    rewrite list_elem_of_filter. tauto. }
  split_and!; [|done|done].
  intros x. destruct (decide (agentId ∈ prev)) as [Hi|Hn].
  - rewrite (Hin Hi), elem_of_app, list_elem_of_filter, list_elem_of_singleton.
    destruct (decide (x = agentId)) as [->|]; tauto.
  - by rewrite (Hout Hn).
Qed.

(** ** Inbound envelopes *)

(** X8.  Handling an inbound envelope changes at most one status entry.
    An entry that differs afterwards holds [idle] when the envelope is a
    [message] and the envelope's status when it is a [status]; an
    envelope of any other type changes no entry.  The sockets, [wsRef],
    the selection, the input, the connection flags, the session id and
    the timers are not touched. *)
Theorem handleWebSocketMessage_frame (now : string) (data : Envelope) (s : State) :
  let s' := handleWebSocketMessage now data s in
  (∃ k0, ∀ k, k ≠ k0 → agentStatuses s' !! k = agentStatuses s !! k) ∧
  (∀ k, agentStatuses s' !! k ≠ agentStatuses s !! k →
        (e_type data = "message" ∧ agentStatuses s' !! k = Some "idle") ∨
        (e_type data = "status" ∧ agentStatuses s' !! k = Some (e_status data))) ∧
  (e_type data ≠ "message" → e_type data ≠ "status" →
   agentStatuses s' = agentStatuses s) ∧
  sockets s' = sockets s ∧ wsRef s' = wsRef s ∧
  selectedAgents s' = selectedAgents s ∧ inputValue s' = inputValue s ∧
  isConnected s' = isConnected s ∧ isConnecting s' = isConnecting s ∧
  sessionId s' = sessionId s ∧ timers s' = timers s.
Proof.
  intros s'. subst s'. unfold handleWebSocketMessage.
  destruct (decide (e_type data = "message")) as [Hm|Hm];
    [|destruct (decide (e_type data = "status")) as [Hs|Hs]].
  - simpl. split_and!; try done.
    + exists (status_key (e_sender data)). intros k Hk. by rewrite lookup_insert_ne.
    + intros k Hk. left. split; [done|].
      destruct (decide (status_key (e_sender data) = k)) as [<-|Hne].
      * by rewrite lookup_insert_eq.
      * by rewrite lookup_insert_ne in Hk.
  - simpl. split_and!; try done.
    + exists (status_key (e_agent data)). intros k Hk. by rewrite lookup_insert_ne.
    + intros k Hk. right. split; [done|].
      destruct (decide (status_key (e_agent data) = k)) as [<-|Hne].
      * by rewrite lookup_insert_eq.
      * by rewrite lookup_insert_ne in Hk.
  - repeat case_decide; simpl; split_and!; try done; by exists "".
Qed.

(** A [message] envelope that also names an agent touches the sender's
    entry only. *)
Example handleWebSocketMessage_frame_example :
  let data := mkEnvelope "message" (Some "Gemini") (JStr "hi") None (Some "ollama")
                "thinking" None None JUndefined JUndefined JUndefined in
  let s' := handleWebSocketMessage "t3" data typing_state in
  agentStatuses s' !! "gemini" = Some "idle" ∧
  agentStatuses s' !! "ollama" = agentStatuses typing_state !! "ollama".
Proof. by split. Qed.

(** ** Close events of sockets that are no longer current *)

(** X9.  The close handler is bound to its socket, not to [wsRef]: when
    a socket other than the current one closes, the view is marked
    disconnected and every agent status is dropped all the same, while
    [wsRef] and the current socket stay as they are; if the current
    socket was open it still is, and [sendMessage] still sends on it. *)
Theorem onclose_of_stale_socket (i : nat) (w : WebSocket) (s : State) :
  sockets s !! i = Some w → readyState w ≠ CLOSED → wsRef s ≠ Some i →
  let s' := onclose i s in
  isConnected s' = false ∧ isConnecting s' = false ∧ agentStatuses s' = ∅ ∧
  wsRef s' = wsRef s ∧ current s' = current s ∧ ws_is_open s' = ws_is_open s.
Proof.
  intros Hw Hr Href s'. subst s'. unfold onclose. rewrite Hw.
  assert (current
            (set_agentStatuses (λ _, ∅)
               (set_isConnecting false
                  (set_isConnected false
                     (set_sockets (<[i := mkWebSocket (url w) CLOSED (sent w)]>) s))))
          = current s) as Hcur.
  { unfold current. simpl. destruct (wsRef s) as [j|]; [|done].
    apply list_lookup_insert_ne. congruence. }
  destruct (readyState w); try done;
    (split_and!; [done..|exact Hcur|unfold ws_is_open; by rewrite Hcur]).
Qed.

Definition second_session : State :=
  run connected_state [EvDisconnect; EvStartSession 2000; EvOpen 1 "t1"].

Lemma onclose_of_stale_socket_witness :
  isConnected second_session = true ∧
  isConnected (onclose 0 second_session) = false ∧
  ws_is_open (onclose 0 second_session) = true.
Proof.
  destruct (onclose_of_stale_socket 0
              (mkWebSocket (AUTOGEN_WS_URL +:+ "/claude-ui-1000") CLOSING [end_session])
              second_session) as (H1 & _ & _ & _ & _ & H2);
    [reflexivity|discriminate|discriminate|].
  split_and!; [reflexivity|exact H1|]. rewrite H2. reflexivity.
Defined.

(** ** Session identifiers *)

(** X10.  Two connection attempts get the same session id exactly when
    they read the same millisecond from the clock; the id is the one in
    the address of the socket the attempt constructs. *)
Theorem connect_sessionId (now1 now2 : N) (s1 s2 : State) :
  ws_is_open s1 = false → ws_is_open s2 = false →
  (sessionId (connect now1 s1) = sessionId (connect now2 s2) ↔ now1 = now2) ∧
  (∃ sid, sessionId (connect now1 s1) = Some sid ∧
          url <$> current (connect now1 s1) = Some (AUTOGEN_WS_URL +:+ "/" +:+ sid)).
Proof.
  intros H1 H2. unfold connect. rewrite H1, H2. simpl. split.
  - split; [|by intros ->]. intros H. injection H as H.
    simpl in H. exact (pretty_N_inj _ _ H).
  - eexists. split; [done|]. unfold current. simpl.
    by rewrite lookup_app_r, Nat.sub_diag.
Qed.

Lemma connect_sessionId_witness :
  sessionId (connect 1000 initial) =
    sessionId (connect 1000 (disconnect connected_state)) ↔
  1000%N = 1000%N.
Proof.
  apply (connect_sessionId 1000 1000 initial (disconnect connected_state)); reflexivity.
Defined.

(** ** The error banner *)

Lemma step_errorBanner (s : State) (e : Event) :
  (∃ now, e = EvStartSession now) ∨
  errorBanner (step s e) = errorBanner s ∨ is_Some (errorBanner (step s e)).
Proof.
  destruct e; simpl; [left; by eexists|right..];
    unfold disconnect, sendMessage, click_agent, fire_timer,
      startSession_timeout, onopen, onerror, onclose, onmessage,
      handleWebSocketMessage, on_current;
    repeat case_match; simpl; eauto.
Qed.

(** X11.  Once the connection-error banner is set, nothing takes it away
    but a Start Session that makes a new attempt: after any sequence of
    other events (messages, closing, End Session, input, clicks) a banner
    is still shown. *)
Theorem errorBanner_persists (s : State) (es : list Event) :
  is_Some (errorBanner s) →
  (∀ e, e ∈ es → ∀ now, e ≠ EvStartSession now) →
  is_Some (errorBanner (run s es)).
Proof.
  unfold run. revert s. induction es as [|e es IH]; intros s Hs Hes; simpl; [done|].
  apply IH; [|intros x Hx; apply Hes; by right].
  destruct (step_errorBanner s e) as [[now ->]|[He|He]].
  - exfalso. by apply (Hes (EvStartSession now) ltac:(left) now).
  - by rewrite He.
  - done.
Qed.

Lemma errorBanner_persists_witness :
  is_Some (errorBanner
             (run (onerror 0 (connect 1000 initial))
                [EvClose 0; EvDisconnect; EvClickAgent "ollama"])).
Proof.
  apply (errorBanner_persists (onerror 0 (connect 1000 initial))
           [EvClose 0; EvDisconnect; EvClickAgent "ollama"]).
  - by eexists.
  - intros e He now.
    repeat (apply elem_of_cons in He as [-> | He]; [discriminate|]).
    by apply elem_of_nil in He.
Defined.

End MultiAgentChatMore.

(** * The provider directory and the agent palette of the chat view *)

Module MultiAgentChatView.
Import Js IntegrationDashboard.

Definition AUTOGEN_API_URL : string := "http://localhost:8000/api/v1".

Record Agent : Type := mkAgent {
  a_id : string;
  a_name : string;
  a_color : string;
  a_description : string
}.

Definition AVAILABLE_AGENTS : list Agent :=
  [ mkAgent "gemini" "Gemini" "#4285F4" "Google Gemini AI";
    mkAgent "claude" "Claude" "#D97706" "Anthropic Claude";
    mkAgent "ollama" "Ollama" "#10B981" "Local Ollama models";
    mkAgent "copilot" "Copilot" "#6366F1" "GitHub Copilot" ].

(** [getAgentColor]; the argument is [msg.sender], which an envelope may
    lack, and [undefined.toLowerCase()] throws: [None]. *)
Definition getAgentColor (agentId : option string) : option string :=
  match agentId with
  | None => None
  | Some a =>
      Some (or_default
              (a_color <$> List.find (λ x, bool_decide (a_id x = toLowerCase a))
                             AVAILABLE_AGENTS)
              "#6B7280")
  end.

(** The callback of [providers.find]:
    [p.name.toLowerCase() === agentId.toLowerCase()]; [None] when it
    throws, which it does unless [p] is an object whose [name] is a
    string. *)
Definition name_matches (agentId : string) (p : JsVal) : option bool :=
  match p with
  | JObj l =>
      match own_property "name" l with
      | JStr n => Some (bool_decide (toLowerCase n = toLowerCase agentId))
      | _ => None
      end
  | _ => None
  end.

(** [providers.find(...)] on the elements of an array: [None] when the
    callback throws, [Some None] for [undefined]. *)
Fixpoint find_provider (agentId : string) (l : list JsVal) : option (option JsVal) :=
  match l with
  | [] => Some None
  | p :: r =>
      match name_matches agentId p with
      | None => None
      | Some true => Some (Some p)
      | Some false => find_provider agentId r
      end
  end.

(** [provider?.available]. *)
Definition available (provider : option JsVal) : JsVal :=
  match provider with
  | Some (JObj l) => own_property "available" l
  | _ => JUndefined
  end.

(** [getProviderStatus] on the content of the [providers] cell; [None]
    when it throws. *)
Definition getProviderStatus (providers : JsVal) (agentId : string) : option string :=
  match providers with
  | JArr l =>
      match find_provider agentId l with
      | Some provider =>
          Some (if truthy (available provider) then "available" else "unavailable")
      | None => None
      end
  | _ => None
  end.

(** An async function over the [providers] cell. *)
Definition Cell (A : Type) : Type := JsVal → Outcome A * JsVal.

Definition cell_ret {A} (a : A) : Cell A := λ c, (Done a, c).

Definition cell_bind {A B} (m : Cell A) (k : A → Cell B) : Cell B :=
  λ c, match m c with
       | (Done a, c') => k a c'
       | (Threw e, c') => (Threw e, c')
       | (Stuck, c') => (Stuck, c')
       end.

Definition cell_try {A} (m : Cell A) (h : JsError → Cell A) : Cell A :=
  λ c, match m c with
       | (Threw e, c') => h e c'
       | r => r
       end.

(** [await p] for a promise that settles as [o]. *)
Definition cell_await {A} (o : Outcome A) : Cell A := λ c, (o, c).

Definition setProviders (v : JsVal) : Cell unit := λ _, (Done tt, v).

(** How [fetch(url)] with no signal settles. *)
Definition settle_fetch (f : Fetch) : Outcome Response :=
  match f with
  | Responds _ r => Done r
  | Fails _ e => Threw e
  | Silent => Stuck
  end.

(** How [response.json()] settles. *)
Definition settle_json (r : Response) : Outcome JsVal :=
  match body r with
  | BodyJson data => Done data
  | BodyRejects e => Threw e
  | BodyStalls => Stuck
  end.

(** Property access [v.k]. *)
Definition get (k : string) (v : JsVal) : Outcome JsVal :=
  match v with
  | JUndefined | JNull => Threw (TypeError "Cannot read properties")
  | JObj l => Done (own_property k l)
  | _ => Done JUndefined
  end.

(** [fetchProviders]. *)
Definition fetchProviders (net : Network) : Cell unit :=
  cell_try
    (cell_bind (cell_await (settle_fetch (net (AUTOGEN_API_URL +:+ "/providers"))))
       (λ response,
          if ok response then
            cell_bind (cell_await (settle_json response)) (λ data,
            cell_bind (cell_await (get "providers" data)) (λ providers,
            setProviders (or_else providers (JArr []))))
          else cell_ret tt))
    (λ _, cell_ret tt).

(** The entries the directory contract describes: objects with a string
    [name]. *)
Definition named (p : JsVal) : Prop :=
  ∃ l n, p = JObj l ∧ own_property "name" l = JStr n.

End MultiAgentChatView.

Module MultiAgentChatViewSpec.
Import Js IntegrationDashboard MultiAgentChatView.

Lemma lower_char_idem (c : ascii) : lower_char (lower_char c) = lower_char c.
Proof. by destruct c as [[] [] [] [] [] [] [] []]. Qed.

Lemma toLowerCase_idem (s : string) : toLowerCase (toLowerCase s) = toLowerCase s.
Proof.
  induction s as [|c r IH]; simpl; [done|]. by rewrite lower_char_idem, IH.
Qed.

Lemma find_all_false {A} (f : A → bool) (l : list A) :
  (∀ x, x ∈ l → f x = false) → List.find f l = None.
Proof.
  induction l as [|y l IH]; intros H; simpl; [done|].
  rewrite H by (by left). apply IH. intros x Hx. apply H. by right.
Qed.

(** X12.  [getAgentColor] throws only when there is no sender; for a
    sender it compares lower-cased, so every spelling of an agent's id
    gets that agent's colour, and a name that is no agent's id in any
    spelling gets the grey default. *)
Theorem getAgentColor_spec (a : string) :
  getAgentColor None = None ∧
  getAgentColor (Some a) = getAgentColor (Some (toLowerCase a)) ∧
  (∀ ag, ag ∈ AVAILABLE_AGENTS → toLowerCase a = a_id ag →
         getAgentColor (Some a) = Some (a_color ag)) ∧
  ((∀ ag, ag ∈ AVAILABLE_AGENTS → toLowerCase a ≠ a_id ag) →
   getAgentColor (Some a) = Some "#6B7280").
Proof.
  split_and!.
  - done.
  - unfold getAgentColor. by rewrite toLowerCase_idem.
  - intros ag Hin Heq. unfold getAgentColor. rewrite Heq.
    unfold AVAILABLE_AGENTS in Hin.
    repeat (apply elem_of_cons in Hin as [-> | Hin]; [reflexivity|]).
    by apply elem_of_nil in Hin.
  - intros Hno. unfold getAgentColor. rewrite find_all_false; [done|].
    intros ag Hin. apply bool_decide_eq_false_2. intros Heq.
    by apply (Hno ag Hin).
Qed.

(** ** getProviderStatus *)

Lemma name_matches_lower (agentId : string) (p : JsVal) :
  name_matches (toLowerCase agentId) p = name_matches agentId p.
Proof. unfold name_matches. by rewrite toLowerCase_idem. Qed.

Lemma find_provider_lower (agentId : string) (l : list JsVal) :
  find_provider (toLowerCase agentId) l = find_provider agentId l.
Proof.
  induction l as [|p l IH]; simpl; [done|]. by rewrite name_matches_lower, IH.
Qed.

Lemma named_matches (agentId : string) (p : JsVal) :
  named p → ∃ b, name_matches agentId p = Some b.
Proof. intros (l & n & -> & Hn). unfold name_matches. rewrite Hn. eauto. Qed.

(** The first entry of [l] whose name matches is [p]. *)
Definition first_match (agentId : string) (l : list JsVal) (p : JsVal) : Prop :=
  ∃ pre post, l = pre ++ p :: post ∧
              Forall (λ q, name_matches agentId q = Some false) pre ∧
              name_matches agentId p = Some true.

Lemma find_provider_named (agentId : string) (l : list JsVal) :
  Forall named l →
  (∃ p, find_provider agentId l = Some (Some p) ∧ first_match agentId l p) ∨
  (find_provider agentId l = Some None ∧ ∀ p, ¬ first_match agentId l p).
Proof.
  induction 1 as [|q l Hq Hl IH]; simpl.
  - right. split; [done|]. intros p (pre & post & H & _). by destruct pre.
  - destruct (named_matches agentId q Hq) as [[] Hb]; rewrite Hb.
    + left. exists q. split; [done|]. by exists [], l.
    + destruct IH as [(p & Hf & pre & post & -> & Hpre & Hp)|(Hf & Hnone)].
      * left. exists p. split; [done|]. exists (q :: pre), post.
        split_and!; [done|by constructor|done].
      * right. split; [done|]. intros p (pre & post & Heq & Hpre & Hp).
        destruct pre as [|x pre]; simpl in Heq; injection Heq as -> ->.
        -- congruence.
        -- apply (Hnone p). exists pre, post. split_and!; [done| |done].
           by inversion Hpre.
Qed.

Lemma first_match_unique (agentId : string) (l : list JsVal) (p q : JsVal) :
  first_match agentId l p → first_match agentId l q → p = q.
Proof.
  intros (pre & post & -> & Hpre & Hp) (pre' & post' & Heq & Hpre' & Hq).
  revert pre' Heq Hpre'. induction pre as [|x pre IH]; intros pre' Heq Hpre'.
  - destruct pre' as [|y pre']; simpl in Heq; injection Heq as Hx Hr; [done|].
    subst. inversion Hpre'; congruence.
  - destruct pre' as [|y pre']; simpl in Heq; injection Heq as Hx Hr.
    + subst. inversion Hpre; congruence.
    + subst. inversion Hpre; inversion Hpre'; subst. by eapply IH.
Qed.

(** X13.  On a directory whose entries are objects with a string name,
    [getProviderStatus] never throws.  It answers "available" exactly
    when the first entry whose lower-cased name equals the lower-cased
    agent id has a truthy [available]; later entries of the same name are
    not looked at, an agent with no entry is "unavailable", and the
    answer does not depend on the case of the agent id. *)
Theorem getProviderStatus_first_match (l : list JsVal) (agentId : string) :
  Forall named l →
  ∃ r, getProviderStatus (JArr l) agentId = Some r ∧
       (r = "available" ∨ r = "unavailable") ∧
       (r = "available" ↔
          ∃ p, first_match agentId l p ∧ truthy (available (Some p)) = true) ∧
       getProviderStatus (JArr l) (toLowerCase agentId) = Some r.
Proof.
  intros Hl. unfold getProviderStatus. rewrite find_provider_lower.
  destruct (find_provider_named agentId l Hl) as [(p & -> & Hp)|(-> & Hnone)].
  - eexists. split; [done|]. split_and!; [|split|done].
    + destruct (truthy (available (Some p))); [by left|by right].
    + intros Hr. exists p. split; [done|].
      by destruct (truthy (available (Some p))).
    + intros (q & Hq & Ht). rewrite (first_match_unique _ _ _ _ Hp Hq). by rewrite Ht.
  - eexists. split; [done|]. split_and!; [by right|split|done].
    + done.
    + intros (q & Hq & _). by destruct (Hnone q).
Qed.

Definition directory : list JsVal :=
  [ JObj [("name", JStr "Gemini"); ("available", JBool true)];
    JObj [("name", JStr "Claude"); ("available", JBool false)];
    JObj [("name", JStr "claude"); ("available", JBool true)] ].

Lemma getProviderStatus_first_match_witness :
  ∃ r, getProviderStatus (JArr directory) "CLAUDE" = Some r ∧
       (r = "available" ∨ r = "unavailable") ∧
       (r = "available" ↔
          ∃ p, first_match "CLAUDE" directory p ∧ truthy (available (Some p)) = true) ∧
       getProviderStatus (JArr directory) (toLowerCase "CLAUDE") = Some r.
Proof.
  apply (getProviderStatus_first_match directory "CLAUDE").
  repeat constructor; by eexists _, _.
Defined.

Example getProviderStatus_examples :
  getProviderStatus (JArr directory) "CLAUDE" = Some "unavailable" ∧
  getProviderStatus (JArr directory) "gemini" = Some "available" ∧
  getProviderStatus (JArr directory) "ollama" = Some "unavailable" ∧
  getProviderStatus (JArr []) "gemini" = Some "unavailable" ∧
  getProviderStatus (JArr [JObj [("available", JBool true)]]) "gemini" = None.
Proof. by split_and!. Qed.

(** ** fetchProviders *)

(** X14.  [fetchProviders] never rejects.  The cached directory changes
    only when the response is 2xx and its body parses: it is then
    replaced by the [providers] field of the body, or by the empty list
    when that field is missing or falsy.  A non-2xx response, a transport
    failure, an unparseable body or a body that is [null] leave the cache
    as it was. *)
Theorem fetchProviders_cache (net : Network) (cache : JsVal) :
  let f := net (AUTOGEN_API_URL +:+ "/providers") in
  let r := fetchProviders net cache in
  (∀ e, r.1 ≠ Threw e) ∧
  (r.2 ≠ cache → ∃ t resp data, f = Responds t resp ∧ ok resp = true ∧
                                body resp = BodyJson data ∧
                                data ≠ JNull ∧ data ≠ JUndefined) ∧
  (∀ t resp, f = Responds t resp → ok resp = false → r = (Done tt, cache)) ∧
  (∀ t e, f = Fails t e → r = (Done tt, cache)) ∧
  (∀ t resp e, f = Responds t resp → ok resp = true → body resp = BodyRejects e →
               r = (Done tt, cache)) ∧
  (∀ t resp l, f = Responds t resp → ok resp = true → body resp = BodyJson (JObj l) →
               r = (Done tt, or_else (own_property "providers" l) (JArr []))).
Proof.
  intros f r. subst f r.
  unfold fetchProviders, cell_try, cell_bind, cell_await, cell_ret, setProviders,
    settle_fetch, settle_json, get.
  split_and!.
  - intros e. repeat case_match; simpl; congruence.
  - destruct (net (AUTOGEN_API_URL +:+ "/providers")) as [t resp|t e|]; simpl;
      [|done|done].
    destruct (ok resp) eqn:Hok; simpl; [|done].
    destruct (body resp) as [data|e|] eqn:Hb; simpl; [|done|done].
    intros Hne. exists t, resp, data. split_and!; [done..| |];
      intros ->; simpl in Hne; congruence.
  - intros t resp -> Hok. by rewrite Hok.
  - by intros t e ->.
  - intros t resp e -> Hok Hb. by rewrite Hok, Hb.
  - intros t resp l -> Hok Hb. by rewrite Hok, Hb.
Qed.

End MultiAgentChatViewSpec.

(** * Further properties of the service health poller *)

Module IntegrationDashboardMore.
Import Js IntegrationDashboard IntegrationDashboardSpec.

(** [onlineCount]: [Object.values(serviceStatuses).filter(s => s?.status === 'online').length]. *)
Definition onlineCount (s : State) : nat :=
  length (filter (λ r, p_status r = online) (map_to_list (serviceStatuses s)).*2).

(** ** Probe results *)

(** X15.  [checkServiceHealth] never rejects, and the object it resolves
    to is well formed: it carries the payload and a latency exactly when
    the status is [online], and an error message exactly when it is not;
    the state is left alone but for the one request it makes. *)
Theorem checkServiceHealth_result_shape
    (net : Network) (clock : Clock) (svc : Service) (s : State) :
  let r := checkServiceHealth net clock svc s in
  (∀ e, r.1 ≠ Threw e) ∧
  r.2 = logged [health svc] s ∧
  (∀ p, r.1 = Done p →
        (p_status p = online ↔ is_Some (p_data p)) ∧
        (p_status p = online ↔ is_Some (p_latency p)) ∧
        (p_status p ≠ online ↔ is_Some (p_error p))).
Proof.
  intros r. subst r. rewrite checkServiceHealth_eval. simpl.
  assert (∀ e, let p := caught e in
               (p_status p = online ↔ is_Some (p_data p)) ∧
               (p_status p = online ↔ is_Some (p_latency p)) ∧
               (p_status p ≠ online ↔ is_Some (p_error p))) as Hc.
  { intros e. unfold caught. case_decide; simpl; split_and!; split;
      first [done | by intros [? ?] | by eexists]. }
  split_and!; [|done|].
  - intros e. unfold probe_outcome. repeat case_match; congruence.
  - intros p. unfold probe_outcome.
    repeat case_match; intros [= <-]; try apply Hc;
      simpl; split_and!; split; first [done | by intros [? ?] | by eexists].
Qed.

(** ** Secondary fetches *)

(** What a secondary fetch leaves alone between two requests. *)
Definition primary_kept (s s' : State) : Prop :=
  serviceStatuses s' = serviceStatuses s ∧ isRefreshing s' = isRefreshing s ∧
  lastUpdated s' = lastUpdated s ∧ requests s' = requests s.

Lemma fetch_eval (net : Network) (url : string) (s : State) :
  fetch net url s =
  (match net url with
   | Responds _ r => Done r
   | Fails _ e => Threw e
   | Silent => Stuck
   end, logged [url] s).
Proof.
  unfold fetch, bind, request, update, logged. simpl. by destruct (net url).
Qed.

(** [if (resp.ok) { const data = await resp.json(); k(data) }]. *)
Lemma read_body_cases (r : Response) (k : JsVal → Async unit) (s : State)
    (P : State → State → Prop) :
  P s s →
  (∀ data, ∃ s1, (k data s = (Done tt, s1) ∨ ∃ e, k data s = (Threw e, s1)) ∧ P s s1) →
  ∃ o s', (if ok r then let* data := json r in k data else ret tt) s = (o, s') ∧
          P s s' ∧
          (o = Done tt ∨ (∃ e, o = Threw e) ∨ o = Stuck) ∧
          (ok r = false → o = Done tt ∧ s' = s) ∧
          (ok r = true → ∀ e, body r = BodyRejects e → o = Threw e ∧ s' = s).
Proof.
  intros Hrefl Hk. destruct (ok r) eqn:Hok.
  - unfold bind, json. destruct (body r) as [data|e|] eqn:Hb.
    + destruct (Hk data) as (s1 & [H1|(e & H1)] & HP); rewrite H1;
        eexists _, _; (split; [done|]); split_and!; eauto; try done.
    + eexists _, _. split; [done|]. split_and!; eauto; try done.
      intros _ e' [= <-]. done.
    + eexists _, _. split; [done|]. split_and!; eauto; done.
  - eexists _, _. split; [done|]. split_and!; eauto; done.
Qed.

Lemma store_providers_cases (data : JsVal) (s : State) :
  ∃ s1, ((let* providers := prop "providers" data in
          setGatewayProviders (or_else providers (JArr []))) s = (Done tt, s1) ∨
         ∃ e, (let* providers := prop "providers" data in
               setGatewayProviders (or_else providers (JArr []))) s = (Threw e, s1)) ∧
        (primary_kept s s1 ∧ podcastRuns s1 = podcastRuns s ∧
         gatewayStats s1 = gatewayStats s).
Proof.
  unfold bind, prop. destruct data; simpl; eexists; (split; [by eauto|]); done.
Qed.

Lemma store_stats_cases (data : JsVal) (s : State) :
  ∃ s1, (setGatewayStats data s = (Done tt, s1) ∨
         ∃ e, setGatewayStats data s = (Threw e, s1)) ∧
        (primary_kept s s1 ∧ podcastRuns s1 = podcastRuns s ∧
         gatewayProviders s1 = gatewayProviders s).
Proof. eexists. split; [by left|]. done. Qed.

(** What [fetchGatewayDetails] comes to, by what the provider request
    does. *)
Lemma fetchGatewayDetails_cases (net : Network) (s : State) :
  ∃ o s', fetchGatewayDetails net s = (o, s') ∧
    (o = Done tt ∨ o = Stuck) ∧
    serviceStatuses s' = serviceStatuses s ∧ isRefreshing s' = isRefreshing s ∧
    lastUpdated s' = lastUpdated s ∧ podcastRuns s' = podcastRuns s ∧
    (requests s' = requests s ++ [PROVIDERS_URL] ∨
     requests s' = requests s ++ [PROVIDERS_URL; STATISTICS_URL]) ∧
    ((∃ t e, net PROVIDERS_URL = Fails t e) ∨
     (∃ t r e, net PROVIDERS_URL = Responds t r ∧ ok r = true ∧ body r = BodyRejects e) →
     o = Done tt ∧ requests s' = requests s ++ [PROVIDERS_URL] ∧
     gatewayStats s' = gatewayStats s ∧ gatewayProviders s' = gatewayProviders s) ∧
    (∀ t r, net PROVIDERS_URL = Responds t r → ok r = false →
     requests s' = requests s ++ [PROVIDERS_URL; STATISTICS_URL] ∧
     gatewayProviders s' = gatewayProviders s).
Proof.
  unfold fetchGatewayDetails, try_catch. unfold bind at 1. rewrite fetch_eval.
  destruct (net PROVIDERS_URL) as [t r|t e|] eqn:Hp.
  2:{ eexists _, _. split; [done|]. simpl.
      split_and!; eauto; try done; by intros ? ? [=]. }
  2:{ eexists _, _. split; [done|]. simpl. split_and!; eauto; try done;
        first [ by intros [(? & ? & [=])|(? & ? & ? & [=] & _)]
              | by intros ? ? [=] ]. }
  unfold bind at 1.
  destruct (read_body_cases r
              (λ data, let* providers := prop "providers" data in
                       setGatewayProviders (or_else providers (JArr [])))
              (logged [PROVIDERS_URL] s)
              (λ a b, primary_kept a b ∧ podcastRuns b = podcastRuns a ∧
                      gatewayStats b = gatewayStats a))
    as (o1 & s1 & H1 & HP & Ho1 & Hnok & Hrej);
    [done|intros data; apply (store_providers_cases data)|].
  rewrite H1. unfold primary_kept in HP. simpl in HP.
  destruct HP as ((K1 & K2 & K3 & K4) & K5 & K6).
  destruct Ho1 as [->|[(e & ->)| ->]].
  - unfold bind at 1. rewrite fetch_eval.
    assert (requests s1 ++ [STATISTICS_URL] =
            requests s ++ [PROVIDERS_URL; STATISTICS_URL]) as Hreq.
    { rewrite K4. by rewrite <- app_assoc. }
    assert ((∃ t0 e, Responds t r = Fails t0 e) ∨
            (∃ t0 r0 e, Responds t r = Responds t0 r0 ∧ ok r0 = true ∧
                        body r0 = BodyRejects e) → False) as Hnot.
    { intros [(? & ? & [=])|(? & r0 & e & [= <- <-] & Hok & Hb)].
      destruct (Hrej Hok e Hb) as [[=] _]. }
    assert (∀ t0 r0, Responds t r = Responds t0 r0 → ok r0 = false →
                     gatewayProviders s1 = gatewayProviders s) as Hkeep.
    { intros t0 r0 [= <- <-] Hok. destruct (Hnok Hok) as [_ ->]. done. }
    destruct (net STATISTICS_URL) as [t2 r2|t2 e2|] eqn:Hs.
    + destruct (read_body_cases r2 setGatewayStats (logged [STATISTICS_URL] s1)
                  (λ a b, primary_kept a b ∧ podcastRuns b = podcastRuns a ∧
                          gatewayProviders b = gatewayProviders a))
        as (o2 & s2 & H2 & HQ & Ho2 & _ & _);
        [done|intros data; apply (store_stats_cases data)|].
      rewrite H2. unfold primary_kept in HQ. simpl in HQ.
      destruct HQ as ((L1 & L2 & L3 & L4) & L5 & L6).
      destruct Ho2 as [->|[(e & ->)| ->]]; eexists _, _; (split; [done|]);
        (split_and!; [eauto|congruence..|right; congruence| |]);
        first [ by intros H; destruct (Hnot H)
              | intros t0 r0 Heq Hok; split; [congruence|];
                rewrite L6; simpl; by eapply Hkeep ].
    + eexists _, _. split; [done|].
      split_and!; [eauto|simpl; congruence..|by right| |].
      * intros H. destruct (Hnot H).
      * intros t0 r0 Heq Hok. split; [done|]. simpl. by eapply Hkeep.
    + eexists _, _. split; [done|].
      split_and!; [eauto|simpl; congruence..|by right| |].
      * intros H. destruct (Hnot H).
      * intros t0 r0 Heq Hok. split; [done|]. simpl. by eapply Hkeep.
  - eexists _, _. split; [done|]. simpl.
    split_and!; [eauto|congruence..|left; congruence| |].
    + intros H. split_and!; [done|congruence|congruence|].
      destruct H as [(? & ? & [=])|(? & r0 & e0 & [= <- <-] & Hok & Hb)].
      by destruct (Hrej Hok e0 Hb) as [_ ->].
    + intros t0 r0 [= <- <-] Hok. destruct (Hnok Hok) as [[=] _].
  - eexists _, _. split; [done|]. simpl.
    split_and!; [eauto|congruence..|left; congruence| |].
    + intros [(? & ? & [=])|(? & r0 & e & [= <- <-] & Hok & Hb)].
      destruct (Hrej Hok e Hb) as [[=] _].
    + intros t0 r0 [= <- <-] Hok. destruct (Hnok Hok) as [[=] _].
Qed.

(** X16.  [fetchGatewayDetails] never rejects: every failure inside it
    is caught.  It leaves the service statuses, the refreshing flag, the
    timestamp and the podcast runs as they were, and requests the
    provider list first and at most the statistics after it. *)
Theorem fetchGatewayDetails_swallows (net : Network) (s : State) :
  let r := fetchGatewayDetails net s in
  (∀ e, r.1 ≠ Threw e) ∧
  serviceStatuses r.2 = serviceStatuses s ∧ isRefreshing r.2 = isRefreshing s ∧
  lastUpdated r.2 = lastUpdated s ∧ podcastRuns r.2 = podcastRuns s ∧
  (requests r.2 = requests s ++ [PROVIDERS_URL] ∨
   requests r.2 = requests s ++ [PROVIDERS_URL; STATISTICS_URL]).
Proof.
  intros r. subst r.
  destruct (fetchGatewayDetails_cases net s)
    as (o & s' & -> & Ho & H1 & H2 & H3 & H4 & H5 & _).
  simpl. split_and!; try done. intros e. destruct Ho; congruence.
Qed.

(** X17.  The two requests of [fetchGatewayDetails] share one [try]
    block: when the provider request fails in transport, or answers 2xx
    with a body that cannot be parsed, the statistics are not requested
    at all and both cached values stay as they were; a provider response
    that is merely non-2xx does not stop the statistics request. *)
Theorem provider_failure_skips_statistics (net : Network) (s : State) :
  let r := fetchGatewayDetails net s in
  ((∃ t e, net PROVIDERS_URL = Fails t e) ∨
   (∃ t resp e, net PROVIDERS_URL = Responds t resp ∧ ok resp = true ∧
                body resp = BodyRejects e) →
   r.1 = Done tt ∧ requests r.2 = requests s ++ [PROVIDERS_URL] ∧
   gatewayStats r.2 = gatewayStats s ∧ gatewayProviders r.2 = gatewayProviders s) ∧
  (∀ t resp, net PROVIDERS_URL = Responds t resp → ok resp = false →
   requests r.2 = requests s ++ [PROVIDERS_URL; STATISTICS_URL] ∧
   gatewayProviders r.2 = gatewayProviders s).
Proof.
  intros r. subst r.
  destruct (fetchGatewayDetails_cases net s)
    as (o & s' & -> & _ & _ & _ & _ & _ & _ & Hfail & Hnok).
  split; [exact Hfail|exact Hnok].
Qed.

Definition providers_down : Network := λ url,
  if decide (url = PROVIDERS_URL) then Fails 2 (TypeError "Failed to fetch")
  else Responds 5 (mkResponse 200 (BodyJson (JObj [("total_calls", JNum 7)]))).

Example provider_failure_skips_statistics_example :
  let r := fetchGatewayDetails providers_down initial in
  r.1 = Done tt ∧ requests r.2 = [PROVIDERS_URL] ∧ gatewayStats r.2 = None.
Proof. by split_and!. Qed.

Lemma fetchPodcastRuns_cases (net : Network) (s : State) :
  ∃ o s', fetchPodcastRuns net s = (o, s') ∧
    (o = Done tt ∨ o = Stuck) ∧
    requests s' = requests s ++ [RUNS_URL] ∧
    serviceStatuses s' = serviceStatuses s ∧ isRefreshing s' = isRefreshing s ∧
    lastUpdated s' = lastUpdated s ∧ gatewayStats s' = gatewayStats s ∧
    gatewayProviders s' = gatewayProviders s ∧
    (∀ t resp data, net RUNS_URL = Responds t resp → ok resp = true →
                    body resp = BodyJson data →
                    o = Done tt ∧
                    podcastRuns s' = (if truthy data then data else JArr [])) ∧
    ((∀ t resp data, net RUNS_URL = Responds t resp → ok resp = true →
                     body resp ≠ BodyJson data) →
     podcastRuns s' = podcastRuns s).
Proof.
  unfold fetchPodcastRuns, try_catch. unfold bind at 1. rewrite fetch_eval.
  destruct (net RUNS_URL) as [t resp|t e|]; simpl.
  2,3: eexists _, _; (split; [done|]); simpl;
       split_and!; first [done | by left | by right | by intros ? ? ? [=]].
  destruct (ok resp) eqn:Hok; simpl.
  2:{ eexists _, _. split; [done|]. simpl.
      split_and!; first [done | by left | intros ? ? ? [= <- <-]; congruence]. }
  unfold bind, json. destruct (body resp) as [data|e|] eqn:Hb; simpl;
    eexists _, _; (split; [done|]); simpl;
    split_and!; try first [done | by left | by right].
  - intros ? ? ? [= <- <-] _ Hb'. rewrite Hb in Hb'. by injection Hb' as <-.
  - intros H. by destruct (H t resp data).
  - intros ? ? ? [= <- <-] _ Hb'. rewrite Hb in Hb'. discriminate.
  - intros ? ? ? [= <- <-] _ Hb'. rewrite Hb in Hb'. discriminate.
Qed.

(** X18.  [fetchPodcastRuns] never rejects and makes exactly one
    request.  On a 2xx response with a JSON body the runs become that
    body, or the empty list when the body is falsy ([null], [false], [0],
    the empty string); in every other case the runs stay as they were.
    Nothing else in the state changes. *)
Theorem fetchPodcastRuns_effects (net : Network) (s : State) :
  let r := fetchPodcastRuns net s in
  (∀ e, r.1 ≠ Threw e) ∧
  requests r.2 = requests s ++ [RUNS_URL] ∧
  serviceStatuses r.2 = serviceStatuses s ∧ isRefreshing r.2 = isRefreshing s ∧
  lastUpdated r.2 = lastUpdated s ∧ gatewayStats r.2 = gatewayStats s ∧
  gatewayProviders r.2 = gatewayProviders s ∧
  (∀ t resp data, net RUNS_URL = Responds t resp → ok resp = true →
                  body resp = BodyJson data →
                  r.1 = Done tt ∧
                  podcastRuns r.2 = (if truthy data then data else JArr [])) ∧
  ((∀ t resp data, net RUNS_URL = Responds t resp → ok resp = true →
                   body resp ≠ BodyJson data) →
   podcastRuns r.2 = podcastRuns s).
Proof.
  intros r. subst r.
  destruct (fetchPodcastRuns_cases net s)
    as (o & s' & -> & Ho & H1 & H2 & H3 & H4 & H5 & H6 & H7 & H8).
  simpl. split_and!; try done. intros e. destruct Ho; congruence.
Qed.

(** ** RefreshAll *)

Lemma bind_stuck {A B} (m : Async A) (k : A → Async B) (s s' : State) :
  m s = (Stuck, s') → bind m k s = (Stuck, s').
Proof. unfold bind. by intros ->. Qed.

Lemma probe_each_cases (net : Network) (clock : Clock) (services : list Service)
    (statuses : gmap string ProbeResult) (s : State) :
  probe_each net clock services statuses s =
    (Done (gathered net clock services statuses), logged (health <$> services) s) ∨
  (∃ urls, probe_each net clock services statuses s = (Stuck, logged urls s)).
Proof.
  revert statuses s. induction services as [|svc rest IH]; intros statuses s.
  - left. simpl. by rewrite logged_nil.
  - simpl. unfold bind. rewrite checkServiceHealth_eval.
    destruct (probe_outcome clock (net (health svc))) as [p|e|] eqn:Ho.
    + assert (probe_result clock (net (health svc)) = p) as Hp.
      { unfold probe_result. by rewrite Ho. }
      destruct (IH (<[id svc := p]> statuses) (logged [health svc] s))
        as [H|(urls & H)]; rewrite H, logged_logged.
      * left. unfold gathered. simpl. by rewrite Hp.
      * right. by eexists.
    + exfalso. revert Ho. unfold probe_outcome.
      destruct (net (health svc)); repeat case_match; done.
    + right. by eexists.
Qed.

(** What an invocation of [refreshAll] comes to. *)
Lemma refreshAll_cases (net : Network) (clock : Clock) (now : Z) (s : State) :
  let statuses := gathered net clock SERVICES ∅ in
  ∃ o s', refreshAll net clock now s = (o, s') ∧
  ((o = Stuck ∧ isRefreshing s' = true ∧ lastUpdated s' = lastUpdated s ∧
    (serviceStatuses s' = serviceStatuses s ∨ serviceStatuses s' = statuses)) ∨
   (o = Done tt ∧ isRefreshing s' = false ∧ lastUpdated s' = Some now ∧
    serviceStatuses s' = statuses ∧
    ∃ gw pod, requests s' = requests s ++ (health <$> SERVICES) ++ gw ++ pod ∧
              (if is_online statuses "genai-gateway"
               then gw = [PROVIDERS_URL] ∨ gw = [PROVIDERS_URL; STATISTICS_URL]
               else gw = []) ∧
              (if is_online statuses "news-podcaster" then pod = [RUNS_URL] else pod = []))).
Proof.
  intros statuses. unfold refreshAll.
  erewrite bind_done by reflexivity.
  destruct (probe_each_cases net clock SERVICES ∅ (update
     (λ s0, mkState (serviceStatuses s0) (gatewayStats s0) (gatewayProviders s0)
              (podcastRuns s0) true (lastUpdated s0) (requests s0)) s).2)
    as [Hp|(urls & Hp)].
  2:{ erewrite bind_stuck by exact Hp. eexists _, _. split; [done|].
      left. simpl. split_and!; eauto. }
  erewrite bind_done by exact Hp. fold statuses.
  erewrite bind_done by reflexivity.
  match goal with |- context [bind _ _ ?st] => set (s1 := st) end.
  assert (serviceStatuses s1 = statuses) as S1 by reflexivity.
  assert (isRefreshing s1 = true) as S2 by reflexivity.
  assert (lastUpdated s1 = lastUpdated s) as S3 by reflexivity.
  assert (requests s1 = requests s ++ (health <$> SERVICES)) as S4 by reflexivity.
  clearbody s1. clear Hp.
  assert (∃ o s2 gw, (if is_online statuses "genai-gateway"
                      then fetchGatewayDetails net else ret tt) s1 = (o, s2) ∧
            (o = Done tt ∨ o = Stuck) ∧
            serviceStatuses s2 = statuses ∧ isRefreshing s2 = true ∧
            lastUpdated s2 = lastUpdated s ∧
            requests s2 = requests s ++ (health <$> SERVICES) ++ gw ∧
            (if is_online statuses "genai-gateway"
             then gw = [PROVIDERS_URL] ∨ gw = [PROVIDERS_URL; STATISTICS_URL]
             else gw = []))
    as (o & s2 & gw & H2 & Ho & G1 & G2 & G3 & G4 & G5).
  { destruct (is_online statuses "genai-gateway").
    - destruct (fetchGatewayDetails_cases net s1)
        as (o & s2 & -> & Ho & K1 & K2 & K3 & _ & K5 & _).
      destruct K5 as [K5|K5]; eexists o, s2, _;
        (split_and!; [done|done|congruence|congruence|congruence| |]);
        [rewrite K5, S4, <- app_assoc; reflexivity|by left
        |rewrite K5, S4, <- app_assoc; reflexivity|by right].
    - exists (Done tt), s1, []. split_and!; try done; eauto;
        by rewrite app_nil_r. }
  destruct Ho as [-> | ->].
  2:{ erewrite bind_stuck by exact H2. eexists _, _. split; [done|].
      left. split_and!; eauto. }
  erewrite bind_done by exact H2.
  assert (∃ o s3 pod, (if is_online statuses "news-podcaster"
                       then fetchPodcastRuns net else ret tt) s2 = (o, s3) ∧
            (o = Done tt ∨ o = Stuck) ∧
            serviceStatuses s3 = statuses ∧ isRefreshing s3 = true ∧
            lastUpdated s3 = lastUpdated s ∧
            requests s3 = requests s2 ++ pod ∧
            (if is_online statuses "news-podcaster" then pod = [RUNS_URL] else pod = []))
    as (o & s3 & pod & H3 & Ho & P1 & P2 & P3 & P4 & P5).
  { destruct (is_online statuses "news-podcaster").
    - destruct (fetchPodcastRuns_cases net s2)
        as (o & s3 & -> & Ho & K1 & K2 & K3 & K4 & _).
      exists o, s3, [RUNS_URL]. split_and!; try done; congruence.
    - exists (Done tt), s2, []. split_and!; try done; eauto;
        by rewrite app_nil_r. }
  destruct Ho as [-> | ->].
  2:{ erewrite bind_stuck by exact H3. eexists _, _. split; [done|].
      left. split_and!; eauto. }
  erewrite bind_done by exact H3.
  erewrite bind_done by reflexivity.
  eexists _, _. split; [reflexivity|].
  right. simpl. split_and!; try done.
  exists gw, pod. split_and!; try done.
  rewrite P4, G4. by rewrite <- !app_assoc.
Qed.


(** X20.  A refresh that returns has requested the health endpoints
    first, and after them the provider list exactly when the gateway was
    found [online], the statistics only when it was, and the recent runs
    exactly when the podcast service was found [online]. *)
Theorem secondary_requests_follow_status
    (net : Network) (clock : Clock) (now : Z) (s : State) :
  let r := refreshAll net clock now s in
  r.1 = Done tt →
  ∃ more, requests r.2 = requests s ++ (health <$> SERVICES) ++ more ∧
          (PROVIDERS_URL ∈ more ↔ is_online (serviceStatuses r.2) "genai-gateway" = true) ∧
          (STATISTICS_URL ∈ more → is_online (serviceStatuses r.2) "genai-gateway" = true) ∧
          (RUNS_URL ∈ more ↔ is_online (serviceStatuses r.2) "news-podcaster" = true).
Proof.
  intros r. subst r.
  destruct (refreshAll_cases net clock now s)
    as (o & s' & -> & [(-> & _)|(-> & _ & _ & Hm & gw & pod & Hreq & Hgw & Hpod)]);
    simpl; [done|]. intros _. rewrite Hm. exists (gw ++ pod). split; [done|].
  destruct (is_online _ "genai-gateway"), (is_online _ "news-podcaster");
    repeat match goal with H : _ ∨ _ |- _ => destruct H end; subst;
    split_and!; try split; try done; intros H; try done;
    first [ by apply (bool_decide_unpack _)
          | exfalso; revert H; by apply (bool_decide_eq_false_1 _) ].
Qed.

Definition only_gateway_up : Network := λ url,
  if decide (url = "http://localhost:8000/api/v1/health")
  then Responds 8 (mkResponse 200 (BodyJson (JObj [("version", JStr "1.0")])))
  else if decide (url = PROVIDERS_URL)
  then Responds 9 (mkResponse 200 (BodyJson (JObj [("providers", JArr [])])))
  else Fails 1 (TypeError "Failed to fetch").

Lemma secondary_requests_follow_status_witness :
  ∃ more,
    requests (refreshAll only_gateway_up (mkClock 0 0) 5 initial).2 =
      requests initial ++ (health <$> SERVICES) ++ more ∧
    (PROVIDERS_URL ∈ more ↔
       is_online (serviceStatuses (refreshAll only_gateway_up (mkClock 0 0) 5 initial).2)
         "genai-gateway" = true) ∧
    (STATISTICS_URL ∈ more →
       is_online (serviceStatuses (refreshAll only_gateway_up (mkClock 0 0) 5 initial).2)
         "genai-gateway" = true) ∧
    (RUNS_URL ∈ more ↔
       is_online (serviceStatuses (refreshAll only_gateway_up (mkClock 0 0) 5 initial).2)
         "news-podcaster" = true).
Proof.
  apply (secondary_requests_follow_status only_gateway_up (mkClock 0 0) 5 initial).
  reflexivity.
Defined.

(** ** The online counter *)

Lemma gathered_SERVICES (net : Network) (clock : Clock) :
  gathered net clock SERVICES ∅ =
  list_to_map (reverse ((λ svc, (id svc, probe_result clock (net (health svc))))
                          <$> SERVICES)).
Proof. reflexivity. Qed.

(** X21.  After a refresh that returns, the number shown as "Services
    Online" is the number of configured services whose probe ended
    [online]; it never exceeds the number of configured services. *)
Theorem onlineCount_after_refresh (net : Network) (clock : Clock) (now : Z) (s : State) :
  let r := refreshAll net clock now s in
  r.1 = Done tt →
  onlineCount r.2 =
    length (filter (λ svc, p_status (probe_result clock (net (health svc))) = online)
              SERVICES) ∧
  onlineCount r.2 ≤ length SERVICES.
Proof.
  intros r. subst r.
  destruct (refreshAll_cases net clock now s)
    as (o & s' & -> & [(-> & _)|(-> & _ & _ & Hm & _)]); simpl; [done|].
  intros _. unfold onlineCount. rewrite Hm, gathered_SERVICES.
  rewrite map_to_list_to_map by (by apply (bool_decide_unpack _)).
  assert (∀ l : list Service,
            length (filter (λ r, p_status r = online)
                      (reverse ((λ svc, (id svc, probe_result clock (net (health svc))))
                                  <$> l)).*2) =
            length (filter (λ svc, p_status (probe_result clock (net (health svc))) = online)
                      l)) as Hcount.
  { intros l. rewrite reverse_Permutation.
    induction l as [|svc l IH]; [done|].
    rewrite !fmap_cons, !filter_cons. simpl. by case_decide; simpl; rewrite IH. }
  rewrite Hcount. split; [done|]. apply length_filter.
Qed.

Lemma onlineCount_after_refresh_witness :
  onlineCount (refreshAll only_gateway_up (mkClock 0 0) 5 initial).2 =
    length (filter (λ svc, p_status (probe_result (mkClock 0 0)
                                       (only_gateway_up (health svc))) = online)
              SERVICES) ∧
  onlineCount (refreshAll only_gateway_up (mkClock 0 0) 5 initial).2 ≤ length SERVICES.
Proof.
  apply (onlineCount_after_refresh only_gateway_up (mkClock 0 0) 5 initial).
  reflexivity.
Defined.

End IntegrationDashboardMore.

(** * Sessions driven through the view *)

Module MultiAgentChatRuns.
Import Js MultiAgentChat MultiAgentChatSpec.

(** Every event of the sequence is one the view allows when it occurs. *)
Fixpoint enabled_run (s : State) (es : list Event) : bool :=
  match es with
  | [] => true
  | e :: rest => enabled s e && enabled_run (step s e) rest
  end.

(** Events that neither start nor end a session nor run a timer. *)
Definition quiet (e : Event) : bool :=
  match e with
  | EvStartSession _ | EvDisconnect | EvTimer _ => false
  | _ => true
  end.

Definition is_start_session (o : Outbound) : Prop :=
  match o with start_session _ => True | _ => False end.

#[global] Instance is_start_session_dec (o : Outbound) : Decision (is_start_session o).
Proof. destruct o; simpl; apply _. Defined.

(** The [start_session] frames a socket has been handed. *)
Definition session_starts (w : WebSocket) : list Outbound :=
  filter is_start_session (sent w).


(** ** EndSession *)




(** ** StartSession and its timer *)

Lemma filter_start_snoc (l : list Outbound) (o : Outbound) :
  ¬ is_start_session o →
  filter is_start_session (l ++ [o]) = filter is_start_session l.
Proof.
  intros H. rewrite filter_app, filter_cons, decide_False by done.
  by rewrite filter_nil, app_nil_r.
Qed.

Local Ltac unchanged_sockets :=
  simpl; split_and!; [done..|]; intros ? w0 ?; by exists w0.

(** A quiet event leaves [wsRef] and the timers alone, keeps every
    socket, and hands no socket a [start_session] frame. *)
Lemma quiet_step (s : State) (e : Event) :
  quiet e = true →
  wsRef (step s e) = wsRef s ∧ timers (step s e) = timers s ∧
  ∀ i w, sockets s !! i = Some w →
         ∃ w', sockets (step s e) !! i = Some w' ∧
               session_starts w' = session_starts w.
Proof.
  intros Hq.
  assert (∀ (f : WebSocket → WebSocket) (h : list WebSocket) j,
            (∀ w, session_starts (f w) = session_starts w) →
            ∀ i w, h !! i = Some w →
                   ∃ w', alter f j h !! i = Some w' ∧
                         session_starts w' = session_starts w) as Halter.
  { intros f h j Hf i w Hw. destruct (decide (j = i)) as [->|Hne].
    - exists (f w). by rewrite list_lookup_alter_eq, Hw.
    - exists w. by rewrite list_lookup_alter_ne. }
  assert (∀ (h : list WebSocket) j v rs,
            h !! j = Some v →
            ∀ i w, h !! i = Some w →
                   ∃ w', <[j := mkWebSocket (url v) rs (sent v)]> h !! i = Some w' ∧
                         session_starts w' = session_starts w) as Hins.
  { intros h j v rs Hv i w Hw. destruct (decide (j = i)) as [->|Hne].
    - eexists. rewrite list_lookup_insert_eq by (by eapply lookup_lt_Some).
      split; [done|]. by assert (v = w) as -> by congruence.
    - exists w. by rewrite list_lookup_insert_ne. }
  destruct e; try discriminate; simpl.
  - unfold sendMessage.
    destruct (bool_decide (trim (inputValue s) = "") || negb (ws_is_open s));
      [unchanged_sockets|].
    unfold on_current. simpl.
    destruct (wsRef s) as [j|] eqn:Hj; simpl; [|unchanged_sockets].
    split_and!; [done..|]. apply Halter. intros w. unfold session_starts, ws_send.
    destruct (readyState w); try done. cbn [sent]. apply filter_start_snoc.
    by intros [].
  - unchanged_sockets.
  - unfold click_agent. destruct (isConnected s); unchanged_sockets.
  - unfold onopen. destruct (sockets s !! i) as [v|] eqn:Hv; [|unchanged_sockets].
    destruct (readyState v); simpl; try unchanged_sockets.
    split_and!; [done..|]. by apply Hins.
  - unfold onerror. destruct (sockets s !! i); unchanged_sockets.
  - unfold onclose. destruct (sockets s !! i) as [v|] eqn:Hv; [|unchanged_sockets].
    destruct (readyState v); simpl; try unchanged_sockets.
    all: split_and!; [done..|]; by apply Hins.
  - unfold onmessage. destruct (sockets s !! i); [|unchanged_sockets].
    destruct frame; [|unchanged_sockets].
    unfold handleWebSocketMessage. repeat case_decide; simpl; unchanged_sockets.
Qed.

Lemma quiet_run (s : State) (es : list Event) :
  forallb quiet es = true →
  wsRef (run s es) = wsRef s ∧ timers (run s es) = timers s ∧
  ∀ i w, sockets s !! i = Some w →
         ∃ w', sockets (run s es) !! i = Some w' ∧
               session_starts w' = session_starts w.
Proof.
  unfold run. revert s. induction es as [|e es IH]; intros s Hq; simpl in *.
  - split_and!; [done..|]. by eauto.
  - apply andb_true_iff in Hq as [Hq1 Hq2].
    destruct (quiet_step s e Hq1) as (A1 & A2 & A3).
    destruct (IH (step s e) Hq2) as (B1 & B2 & B3).
    split_and!; [congruence..|].
    intros i w Hw. destruct (A3 i w Hw) as (w1 & Hw1 & E1).
    destruct (B3 i w1 Hw1) as (w2 & Hw2 & E2). exists w2. split; [done|congruence].
Qed.

(** C3, as amended.  [startSession] called while no socket is open makes
    a connection attempt, sends nothing itself and arms one timer of
    500 ms that holds the agents selected at the call.  If, until that
    timer runs, no session is started or ended and no other timer runs,
    then the socket in [wsRef] is still the one the call constructed; it
    has been handed no [start_session] frame; and when the timer runs, it
    is handed exactly one, with the agents of the call, if it is open,
    and nothing if it is not.  No other socket is handed anything. *)
Theorem startSession_grace_window (now : N) (s : State) (es : list Event) :
  ws_is_open s = false → forallb quiet es = true →
  let s1 := startSession now s in
  let i := length (sockets s) in
  let k := length (timers s) in
  let s2 := run s1 es in
  let s3 := fire_timer k s2 in
  (∃ ws, readyState ws = CONNECTING ∧ sent ws = [] ∧ sockets s1 = sockets s ++ [ws]) ∧
  isConnecting s1 = true ∧
  timers s1 = timers s ++ [mkTimer 500 (selectedAgents s)] ∧
  wsRef s2 = Some i ∧
  ∃ w2 w3, sockets s2 !! i = Some w2 ∧ sockets s3 !! i = Some w3 ∧
           session_starts w2 = [] ∧
           (readyState w2 = OPEN →
              sent w3 = sent w2 ++ [start_session (selectedAgents s)] ∧
              session_starts w3 = [start_session (selectedAgents s)]) ∧
           (readyState w2 ≠ OPEN → w3 = w2) ∧
           (∀ j, j ≠ i → sockets s3 !! j = sockets s2 !! j).
Proof.
  intros Hclosed Hquiet s1 i k s2 s3. subst s1 i k s2 s3.
  destruct (connect_when_not_open now s Hclosed)
    as (ws & Hrs & Hsent & Hsock & Href & Hflag & _).
  destruct (connect_frame now s) as (Htim & _).
  set (s1 := startSession now s).
  assert (sockets s1 = sockets s ++ [ws]) as S1.
  { unfold s1, startSession. by rewrite Hclosed. }
  assert (wsRef s1 = Some (length (sockets s))) as S2.
  { unfold s1, startSession. by rewrite Hclosed. }
  assert (timers s1 = timers s ++ [mkTimer 500 (selectedAgents s)]) as S3.
  { unfold s1, startSession. rewrite Hclosed. simpl. by rewrite Htim. }
  assert (isConnecting s1 = true) as S4.
  { unfold s1, startSession. by rewrite Hclosed. }
  destruct (quiet_run s1 es Hquiet) as (Q1 & Q2 & Q3).
  destruct (Q3 (length (sockets s)) ws) as (w2 & Hw2 & Hst).
  { rewrite S1. by rewrite lookup_app_r, Nat.sub_diag. }
  assert (session_starts w2 = []) as Hnone.
  { rewrite Hst. unfold session_starts. by rewrite Hsent. }
  split_and!; [by exists ws|done|done|congruence|].
  unfold fire_timer. rewrite Q2, S3.
  rewrite lookup_app_r, Nat.sub_diag by lia. simpl.
  unfold startSession_timeout.
  match goal with |- context [ws_is_open ?b] =>
    assert (ws_is_open b = bool_decide (readyState w2 = OPEN)) as Hopen
  end.
  { unfold ws_is_open, current. simpl. by rewrite Q1, S2, Hw2. }
  rewrite Hopen. destruct (decide (readyState w2 = OPEN)) as [Hr|Hr].
  - rewrite (bool_decide_eq_true_2 _ Hr). unfold on_current. simpl.
    rewrite Q1, S2. simpl.
    exists w2, (ws_send (start_session (selectedAgents s)) w2).
    split_and!; [done| | | | |].
    + by rewrite list_lookup_alter_eq, Hw2.
    + done.
    + intros _. unfold ws_send, session_starts. rewrite Hr. simpl.
      split; [done|]. rewrite filter_app. fold (session_starts w2). rewrite Hnone.
      rewrite filter_cons, decide_True by done. done.
    + done.
    + intros j Hj. by rewrite list_lookup_alter_ne.
  - rewrite (bool_decide_eq_false_2 _ Hr). simpl.
    exists w2, w2. split_and!; done.
Qed.

Lemma startSession_grace_window_witness :
  wsRef (run (startSession 1000 initial)
           [EvClickAgent "claude"; EvOpen 0 "t0"; EvInput "hi"]) = Some 0.
Proof.
  destruct (startSession_grace_window 1000 initial
              [EvClickAgent "claude"; EvOpen 0 "t0"; EvInput "hi"])
    as (_ & _ & _ & H & _); [reflexivity|reflexivity|exact H].
Defined.

(** The same run to its end: the agent dropped after the call is still
    in the envelope. *)
Example startSession_grace_window_run :
  sent <$> sockets (run initial [EvStartSession 1000; EvClickAgent "claude";
                                 EvOpen 0 "t0"; EvInput "hi"; EvTimer 0]) =
    [[start_session ["gemini"; "claude"]]].
Proof. reflexivity. Qed.

(** C3, as stated, fails when a session is ended and another started
    inside the delay.  Every event below is one the view allows.  The
    timer of the first call runs after the second call's socket has
    opened and sends on it, with the first call's agents, although the
    first call's own socket is closing; the second call's timer then
    sends again: the second call's connection is handed two
    [start_session] frames, one of them with a selection that is not the
    one it was called with. *)
Lemma stale_timer_sends_on_new_socket :
  let before := [EvStartSession 1000; EvOpen 0 "t0"; EvDisconnect; EvClickAgent "claude"] in
  let after := [EvStartSession 2000; EvOpen 1 "t1"; EvTimer 0; EvTimer 0] in
  enabled_run initial (before ++ after) = true ∧
  ws_is_open (run initial before) = false ∧
  selectedAgents (run initial before) = ["gemini"] ∧
  (readyState <$> sockets (run initial (before ++ after))) = [CLOSING; OPEN] ∧
  (sent <$> sockets (run initial (before ++ after))) =
    [[end_session];
     [start_session ["gemini"; "claude"]; start_session ["gemini"]]].
Proof. by split_and!. Qed.

End MultiAgentChatRuns.

(** ** IntegrationDashboard.jsx: a refresh cycle, request by request *)

Module IntegrationDashboardCycle.
Import Js IntegrationDashboard IntegrationDashboardSpec IntegrationDashboardMore.

(** The addresses requested between the state [s] and a later state [s']. *)
Definition made (s s' : State) : list string :=
  drop (length (requests s)) (requests s').

Lemma made_app (s s' : State) (urls : list string) :
  requests s' = requests s ++ urls → made s s' = urls.
Proof. unfold made. intros ->. by rewrite drop_app_length. Qed.

Lemma probe_unsettled_outcome (clock : Clock) (f : Fetch) :
  probe_settles f = false → probe_outcome clock f = Stuck.
Proof.
  destruct f as [t r|t e|]; simpl; [|done..].
  destruct (t <? PROBE_TIMEOUT)%N, (ok r), (body r); simpl; done.
Qed.

(** The loop of [refreshAll], probe by probe: either every probe ends, or
    the loop stops at the first one that does not, with the services
    after it never requested. *)
Lemma probe_each_trace (net : Network) (clock : Clock) (services : list Service)
    (statuses : gmap string ProbeResult) (s : State) :
  ((∀ svc, svc ∈ services → probe_settles (net (health svc)) = true) ∧
   probe_each net clock services statuses s =
     (Done (gathered net clock services statuses), logged (health <$> services) s)) ∨
  (∃ ended svc rest,
     services = ended ++ svc :: rest ∧
     (∀ x, x ∈ ended → probe_settles (net (health x)) = true) ∧
     probe_settles (net (health svc)) = false ∧
     probe_each net clock services statuses s =
       (Stuck, logged (health <$> (ended ++ [svc])) s)).
Proof.
  revert statuses s. induction services as [|svc rest IH]; intros statuses s.
  - left. split; [by intros ? ?%elem_of_nil|]. simpl. by rewrite logged_nil.
  - destruct (probe_settles (net (health svc))) eqn:Hs.
    + destruct (IH (<[id svc := probe_result clock (net (health svc))]> statuses)
                  (logged [health svc] s))
        as [(Hall & H)|(ended & svc0 & rest0 & -> & Hall & Hno & H)].
      * left. split.
        { intros x [->|Hx]%elem_of_cons; [done|by apply Hall]. }
        simpl. unfold bind. rewrite checkServiceHealth_eval.
        rewrite probe_settles_outcome by done. rewrite H. by rewrite logged_logged.
      * right. exists (svc :: ended), svc0, rest0. split_and!; [done| |done|].
        { intros x [->|Hx]%elem_of_cons; [done|by apply Hall]. }
        simpl. unfold bind. rewrite checkServiceHealth_eval.
        rewrite probe_settles_outcome by done. rewrite H. by rewrite logged_logged.
    + right. exists [], svc, rest. split_and!; [done|by intros ? ?%elem_of_nil|done|].
      simpl. unfold bind. rewrite checkServiceHealth_eval.
      by rewrite probe_unsettled_outcome.
Qed.

(** In a list of services whose first part has ended and whose next
    service, if there is one, has not, the positions requested are those
    with every earlier probe ended. *)
Lemma requested_iff_earlier_ended (net : Network) (ended : list Service)
    (rest : list Service) (j : nat) (svc : Service) :
  (∀ x, x ∈ ended → probe_settles (net (health x)) = true) →
  (∀ x, head rest = Some x → probe_settles (net (health x)) = false) →
  (ended ++ rest) !! j = Some svc →
  j < length ended + length (take 1 rest) ↔
  ∀ i x, i < j → (ended ++ rest) !! i = Some x → probe_settles (net (health x)) = true.
Proof.
  intros Hall Hno Hj. split.
  - intros Hlt i x Hi Hx. apply Hall.
    rewrite lookup_app_l in Hx.
    + by eapply list_elem_of_lookup_2.
    + destruct rest; simpl in Hlt; lia.
  - intros Hbefore. destruct (decide (j < length ended + length (take 1 rest))) as [|Hge];
      [done|exfalso].
    destruct rest as [|x rest].
    + apply lookup_lt_Some in Hj. rewrite length_app in Hj. simpl in *. lia.
    + simpl in Hge.
      assert (probe_settles (net (health x)) = true) as Hx.
      { apply (Hbefore (length ended) x); [lia|].
        rewrite lookup_app_r by lia. by rewrite Nat.sub_diag. }
      rewrite Hno in Hx; done.
Qed.

(** ** Secondary fetches, with the cause of a wait *)

Lemma read_body_trace (r : Response) (k : JsVal → Async unit) (s : State)
    (P : State → State → Prop) :
  P s s →
  (∀ data, ∃ s1, (k data s = (Done tt, s1) ∨ ∃ e, k data s = (Threw e, s1)) ∧ P s s1) →
  ∃ o s', (if ok r then let* data := json r in k data else ret tt) s = (o, s') ∧
          P s s' ∧
          (o = Done tt ∨ (∃ e, o = Threw e) ∨
           (o = Stuck ∧ ok r = true ∧ body r = BodyStalls)).
Proof.
  intros Hrefl Hk. destruct (ok r) eqn:Hok.
  - unfold bind, json. destruct (body r) as [data|e|] eqn:Hb.
    + destruct (Hk data) as (s1 & [H1|(e & H1)] & HP); rewrite H1;
        eexists _, _; (split; [done|]); split; eauto.
    + eexists _, _. split; [done|]. split; eauto.
    + eexists _, _. split; [done|]. split; eauto.
  - eexists _, _. split; [done|]. split; eauto.
Qed.

Local Ltac in_list :=
  first [ done
        | by repeat constructor
        | by intros ? ->%list_elem_of_singleton; repeat constructor ].

Lemma unanswered (net : Network) (url : string) :
  (net url = Silent ∨ ∃ t r, net url = Responds t r ∧ ok r = true ∧ body r = BodyStalls) →
  fetch_settles (net url) = false.
Proof.
  intros [->|(t & r & -> & Hok & Hb)]; [done|]. simpl. by rewrite Hok, Hb.
Qed.

(** [fetchGatewayDetails]: the requests it makes, and when it is left
    waiting, the request it waits on. *)
Lemma fetchGatewayDetails_trace (net : Network) (s : State) :
  ∃ o s' urls, fetchGatewayDetails net s = (o, s') ∧
    requests s' = requests s ++ urls ∧
    (∀ url, url ∈ urls → url ∈ [PROVIDERS_URL; STATISTICS_URL]) ∧
    serviceStatuses s' = serviceStatuses s ∧ isRefreshing s' = isRefreshing s ∧
    lastUpdated s' = lastUpdated s ∧
    (o = Done tt ∨
     (o = Stuck ∧ ∃ url, url ∈ urls ∧ fetch_settles (net url) = false)).
Proof.
  unfold fetchGatewayDetails, try_catch. unfold bind at 1. rewrite fetch_eval.
  destruct (net PROVIDERS_URL) as [t r|t e|] eqn:Hp.
  2:{ exists (Done tt), (logged [PROVIDERS_URL] s), [PROVIDERS_URL].
      split_and!; try done; [in_list|by left]. }
  2:{ exists Stuck, (logged [PROVIDERS_URL] s), [PROVIDERS_URL].
      split_and!; try done; [in_list|].
      right. split; [done|]. exists PROVIDERS_URL. split; [in_list|].
      apply unanswered. by left. }
  unfold bind at 1.
  destruct (read_body_trace r
              (λ data, let* providers := prop "providers" data in
                       setGatewayProviders (or_else providers (JArr [])))
              (logged [PROVIDERS_URL] s)
              (λ a b, primary_kept a b ∧ podcastRuns b = podcastRuns a ∧
                      gatewayStats b = gatewayStats a))
    as (o1 & s1 & H1 & HP & Ho1);
    [done|intros data; apply (store_providers_cases data)|].
  rewrite H1. unfold primary_kept in HP. simpl in HP.
  destruct HP as ((K1 & K2 & K3 & K4) & _).
  destruct Ho1 as [->|[(e & ->)|(-> & Hok & Hb)]].
  - unfold bind at 1. rewrite fetch_eval.
    assert (requests s1 ++ [STATISTICS_URL] =
            requests s ++ [PROVIDERS_URL; STATISTICS_URL]) as Hreq.
    { rewrite K4. by rewrite <- app_assoc. }
    destruct (net STATISTICS_URL) as [t2 r2|t2 e2|] eqn:Hs.
    + destruct (read_body_trace r2 setGatewayStats (logged [STATISTICS_URL] s1)
                  (λ a b, primary_kept a b ∧ podcastRuns b = podcastRuns a ∧
                          gatewayProviders b = gatewayProviders a))
        as (o2 & s2 & H2 & HQ & Ho2);
        [done|intros data; apply (store_stats_cases data)|].
      rewrite H2. unfold primary_kept in HQ. simpl in HQ.
      destruct HQ as ((L1 & L2 & L3 & L4) & _).
      destruct Ho2 as [->|[(e & ->)|(-> & Hok2 & Hb2)]].
      * exists (Done tt), s2, [PROVIDERS_URL; STATISTICS_URL].
        split_and!; [done|congruence|done|congruence..|by left].
      * exists (Done tt), s2, [PROVIDERS_URL; STATISTICS_URL].
        split_and!; [done|congruence|done|congruence..|by left].
      * exists Stuck, s2, [PROVIDERS_URL; STATISTICS_URL].
        split_and!; [done|congruence|done|congruence..|].
        right. split; [done|]. exists STATISTICS_URL. split; [in_list|].
        apply unanswered. right. by exists t2, r2.
    + exists (Done tt), (logged [STATISTICS_URL] s1), [PROVIDERS_URL; STATISTICS_URL].
      split_and!; [done|done|done|simpl; congruence..|by left].
    + exists Stuck, (logged [STATISTICS_URL] s1), [PROVIDERS_URL; STATISTICS_URL].
      split_and!; [done|done|done|simpl; congruence..|].
      right. split; [done|]. exists STATISTICS_URL. split; [in_list|].
      apply unanswered. by left.
  - exists (Done tt), s1, [PROVIDERS_URL].
    split_and!; [done|done|in_list|congruence..|by left].
  - exists Stuck, s1, [PROVIDERS_URL].
    split_and!; [done|done|in_list|congruence..|].
    right. split; [done|]. exists PROVIDERS_URL. split; [in_list|].
    apply unanswered. right. by exists t, r.
Qed.

(** [fetchPodcastRuns]: one request, on which alone it can be left
    waiting. *)
Lemma fetchPodcastRuns_trace (net : Network) (s : State) :
  ∃ o s', fetchPodcastRuns net s = (o, s') ∧
    requests s' = requests s ++ [RUNS_URL] ∧
    serviceStatuses s' = serviceStatuses s ∧ isRefreshing s' = isRefreshing s ∧
    lastUpdated s' = lastUpdated s ∧
    (o = Done tt ∨ (o = Stuck ∧ fetch_settles (net RUNS_URL) = false)).
Proof.
  destruct (fetchPodcastRuns_cases net s)
    as (o & s' & H & Ho & K1 & K2 & K3 & K4 & _).
  exists o, s'. split_and!; try done.
  destruct Ho as [-> | ->]; [by left|right; split; [done|]].
  revert H. unfold fetchPodcastRuns, try_catch. unfold bind at 1. rewrite fetch_eval.
  destruct (net RUNS_URL) as [t r|t e|] eqn:Hr; simpl; [|done..].
  destruct (ok r) eqn:Hok; simpl; [|done].
  unfold bind, json. by destruct (body r).
Qed.

(** ** RefreshAll *)

(** An invocation of [refreshAll], request by request: the probes, then
    the secondary requests, and where it stops when it is left waiting. *)
Lemma refreshAll_trace (net : Network) (clock : Clock) (now : Z) (s : State) :
  ∃ o s' n more, refreshAll net clock now s = (o, s') ∧
    requests s' = requests s ++ (health <$> take n SERVICES) ++ more ∧
    (∀ url, url ∈ more → url ∈ [PROVIDERS_URL; STATISTICS_URL; RUNS_URL]) ∧
    (∀ j svc, SERVICES !! j = Some svc →
       j < n ↔
       ∀ i x, i < j → SERVICES !! i = Some x → probe_settles (net (health x)) = true) ∧
    ((o = Stuck ∧
      (∃ svc, svc ∈ SERVICES ∧ health svc ∈ health <$> take n SERVICES ∧
              probe_settles (net (health svc)) = false) ∧
      serviceStatuses s' = serviceStatuses s ∧ lastUpdated s' = lastUpdated s) ∨
     ((∀ svc, svc ∈ SERVICES → probe_settles (net (health svc)) = true) ∧
      serviceStatuses s' = gathered net clock SERVICES ∅ ∧
      ((o = Stuck ∧ ∃ url, url ∈ more ∧ fetch_settles (net url) = false) ∨
       (o = Done tt ∧ lastUpdated s' = Some now ∧ isRefreshing s' = false)))).
Proof.
  unfold refreshAll.
  erewrite bind_done by reflexivity.
  match goal with |- context [bind _ _ ?st] => set (s0 := st) end.
  assert (requests s0 = requests s) as R0 by reflexivity.
  assert (serviceStatuses s0 = serviceStatuses s) as M0 by reflexivity.
  assert (lastUpdated s0 = lastUpdated s) as L0 by reflexivity.
  clearbody s0.
  destruct (probe_each_trace net clock SERVICES ∅ s0)
    as [(Hall & Hp)|(ended & svc0 & rest & HS & Hall & Hno & Hp)].
  2:{ erewrite bind_stuck by exact Hp.
      assert (take (length ended + 1) SERVICES = ended ++ [svc0]) as Htake.
      { rewrite HS. by rewrite take_app_add. }
      exists Stuck, (logged (health <$> (ended ++ [svc0])) s0), (length ended + 1), [].
      split; [done|]. rewrite Htake. split_and!.
      - simpl. by rewrite R0, app_nil_r.
      - by intros ? ?%elem_of_nil.
      - intros j svc. rewrite HS. intros Hj.
        apply (requested_iff_earlier_ended net ended (svc0 :: rest) j svc);
          [done|by intros ? [= <-]|done].
      - left. split_and!; [done| |done..].
        exists svc0. split_and!; [|apply list_elem_of_fmap_2|done].
        + rewrite HS. apply elem_of_app. right. constructor.
        + apply elem_of_app. right. constructor. }
  erewrite bind_done by exact Hp.
  set (statuses := gathered net clock SERVICES ∅).
  erewrite bind_done by reflexivity.
  match goal with |- context [bind _ _ ?st] => set (s1 := st) end.
  assert (serviceStatuses s1 = statuses) as S1 by reflexivity.
  assert (isRefreshing s1 = isRefreshing s0) as S2 by reflexivity.
  assert (lastUpdated s1 = lastUpdated s) as S3 by (by rewrite <- L0).
  assert (requests s1 = requests s ++ (health <$> SERVICES)) as S4
    by (by rewrite <- R0).
  clearbody s1. clear Hp.
  assert (∀ j svc, SERVICES !! j = Some svc →
            j < length SERVICES ↔
            ∀ i x, i < j → SERVICES !! i = Some x →
                   probe_settles (net (health x)) = true) as Hidx.
  { intros j svc Hj. split.
    - intros _ i x _ Hx. apply Hall. by eapply list_elem_of_lookup_2.
    - intros _. by eapply lookup_lt_Some. }
  assert (∃ o s2 gw, (if is_online statuses "genai-gateway"
                      then fetchGatewayDetails net else ret tt) s1 = (o, s2) ∧
            requests s2 = requests s1 ++ gw ∧
            (∀ url, url ∈ gw → url ∈ [PROVIDERS_URL; STATISTICS_URL]) ∧
            serviceStatuses s2 = serviceStatuses s1 ∧
            isRefreshing s2 = isRefreshing s1 ∧ lastUpdated s2 = lastUpdated s1 ∧
            (o = Done tt ∨
             (o = Stuck ∧ ∃ url, url ∈ gw ∧ fetch_settles (net url) = false)))
    as (o & s2 & gw & H2 & G1 & G2 & G3 & G4 & G5 & Ho).
  { destruct (is_online statuses "genai-gateway").
    - apply fetchGatewayDetails_trace.
    - exists (Done tt), s1, []. split_and!; try done.
      + by rewrite app_nil_r.
      + by intros ? ?%elem_of_nil.
      + by left. }
  destruct Ho as [-> | (-> & url & Hin & Hno)].
  2:{ erewrite bind_stuck by exact H2.
      exists Stuck, s2, (length SERVICES), gw. split; [done|]. split_and!.
      - by rewrite G1, S4, <- app_assoc.
      - intros u Hu. apply G2 in Hu.
        apply elem_of_cons in Hu as [-> | Hu]; [constructor|].
        apply list_elem_of_singleton in Hu as ->. by repeat constructor.
      - exact Hidx.
      - right. split_and!; [done|congruence|]. left. split; [done|]. by exists url. }
  erewrite bind_done by exact H2.
  assert (∃ o s3 pod, (if is_online statuses "news-podcaster"
                       then fetchPodcastRuns net else ret tt) s2 = (o, s3) ∧
            requests s3 = requests s2 ++ pod ∧
            (∀ url, url ∈ pod → url = RUNS_URL) ∧
            serviceStatuses s3 = serviceStatuses s2 ∧
            isRefreshing s3 = isRefreshing s2 ∧ lastUpdated s3 = lastUpdated s2 ∧
            (o = Done tt ∨
             (o = Stuck ∧ ∃ url, url ∈ pod ∧ fetch_settles (net url) = false)))
    as (o & s3 & pod & H3 & P1 & P2 & P3 & P4 & P5 & Ho).
  { destruct (is_online statuses "news-podcaster").
    - destruct (fetchPodcastRuns_trace net s2) as (o & s3 & -> & K1 & K2 & K3 & K4 & Ho).
      exists o, s3, [RUNS_URL]. split_and!; try done.
      + by intros ? ->%list_elem_of_singleton.
      + destruct Ho as [-> | (-> & Hno)]; [by left|right; split; [done|]].
        exists RUNS_URL. split; [constructor|done].
    - exists (Done tt), s2, []. split_and!; try done.
      + by rewrite app_nil_r.
      + by intros ? ?%elem_of_nil.
      + by left. }
  assert (∀ u, u ∈ gw ++ pod → u ∈ [PROVIDERS_URL; STATISTICS_URL; RUNS_URL]) as Hmore.
  { intros u [Hu|Hu]%elem_of_app.
    - apply G2 in Hu. apply elem_of_cons in Hu as [-> | Hu]; [constructor|].
      apply list_elem_of_singleton in Hu as ->. by repeat constructor.
    - apply P2 in Hu as ->. by repeat constructor. }
  assert (requests s3 = requests s ++ (health <$> SERVICES) ++ gw ++ pod) as Hreq.
  { by rewrite P1, G1, S4, <- !app_assoc. }
  destruct Ho as [-> | (-> & url & Hin & Hno)].
  2:{ erewrite bind_stuck by exact H3.
      exists Stuck, s3, (length SERVICES), (gw ++ pod). split; [done|]. split_and!.
      - exact Hreq.
      - exact Hmore.
      - exact Hidx.
      - right. split_and!; [done|congruence|]. left. split; [done|].
        exists url. split; [|done]. apply elem_of_app. by right. }
  erewrite bind_done by exact H3.
  erewrite bind_done by reflexivity.
  eexists (Done tt), _, (length SERVICES), (gw ++ pod). split; [reflexivity|].
  split_and!.
  - exact Hreq.
  - exact Hmore.
  - exact Hidx.
  - right. split_and!; [done|simpl; congruence|]. by right.
Qed.

Lemma gathered_complete (net : Network) (clock : Clock) (m : gmap string ProbeResult) :
  m = gathered net clock SERVICES ∅ →
  (∀ svc, svc ∈ SERVICES → m !! id svc = Some (probe_result clock (net (health svc)))) ∧
  dom m = list_to_set (id <$> SERVICES).
Proof.
  intros ->. split.
  - intros svc Hin. by apply SERVICES_lookup.
  - unfold gathered, SERVICES. simpl.
    rewrite !dom_insert_L, dom_empty_L. set_solver.
Qed.

(** C6, as amended.  An invocation of [refreshAll] returns as soon as
    every request it makes itself settles, whatever the probes find (all
    of them failing included), and on return the stored map has an entry
    for each configured service and for nothing else, the timestamp is
    the current time and the refreshing flag is off.

    The probes run one after the other, in the order of [SERVICES]: the
    health endpoint of a service is requested exactly when the probe of
    every service before it has ended, so a probe that never ends keeps
    the services after it from being requested at all.  The status map is
    replaced in one step after the last probe: up to the end of the probe
    pass it is the old map; it is the full map once all probes have
    ended; and while some probe has not ended it stays the old map and
    the timestamp the old timestamp.  The secondary requests, made only
    after the probes, carry no timer. *)
Theorem refreshAll_cycle (net : Network) (clock : Clock) (now : Z) (s : State) :
  let r := refreshAll net clock now s in
  let complete :=
    (∀ svc, svc ∈ SERVICES →
       serviceStatuses r.2 !! id svc = Some (probe_result clock (net (health svc)))) ∧
    dom (serviceStatuses r.2) = list_to_set (id <$> SERVICES) in
  (∃ n more,
     requests r.2 = requests s ++ made s r.2 ∧
     made s r.2 = (health <$> take n SERVICES) ++ more ∧
     (∀ url, url ∈ more → url ∈ [PROVIDERS_URL; STATISTICS_URL; RUNS_URL]) ∧
     (∀ j svc, SERVICES !! j = Some svc →
        j < n ↔
        ∀ i x, i < j → SERVICES !! i = Some x → probe_settles (net (health x)) = true)) ∧
  serviceStatuses
    (probe_each net clock SERVICES ∅ (setIsRefreshing true s).2).2 = serviceStatuses s ∧
  ((∀ svc, svc ∈ SERVICES → probe_settles (net (health svc)) = true) → complete) ∧
  (∀ svc, svc ∈ SERVICES → probe_settles (net (health svc)) = false →
     r.1 = Stuck ∧ serviceStatuses r.2 = serviceStatuses s ∧
     lastUpdated r.2 = lastUpdated s) ∧
  ((∀ svc, svc ∈ SERVICES → health svc ∈ made s r.2 →
      probe_settles (net (health svc)) = true) →
   (∀ url, url ∈ [PROVIDERS_URL; STATISTICS_URL; RUNS_URL] → url ∈ made s r.2 →
      fetch_settles (net url) = true) →
   r.1 = Done tt ∧ complete ∧ lastUpdated r.2 = Some now ∧ isRefreshing r.2 = false).
Proof.
  intros r complete. subst r complete.
  assert (serviceStatuses
            (probe_each net clock SERVICES ∅ (setIsRefreshing true s).2).2 =
          serviceStatuses s) as Hpass.
  { destruct (probe_each_sequential net clock SERVICES ∅ (setIsRefreshing true s).2)
      as (urls & _ & -> & _). done. }
  destruct (refreshAll_trace net clock now s)
    as (o & s' & n & more & -> & Hreq & Hmore & Hidx & Hend).
  cbn [fst snd].
  pose proof (made_app s s' _ Hreq) as Hmade. rewrite Hmade.
  split_and!.
  - exists n, more. by split_and!.
  - exact Hpass.
  - intros Hall.
    destruct Hend as [(_ & (svc & Hin & _ & Hno) & _)|(_ & Hm & _)].
    + rewrite Hall in Hno; done.
    + by apply (gathered_complete net clock).
  - intros svc Hin Hno.
    destruct Hend as [(-> & _ & Hm & Hl)|(Hall & _)]; [done|].
    rewrite Hall in Hno; done.
  - intros Hprobes Hsec.
    destruct Hend as [(_ & (svc & Hin & Hrq & Hno) & _)|(_ & Hm & Hend)].
    { rewrite Hprobes in Hno; [done|done|]. apply elem_of_app. by left. }
    destruct Hend as [(_ & url & Hin & Hno)|(-> & Hl & Hf)].
    { rewrite Hsec in Hno; [done|by apply Hmore|]. apply elem_of_app. by right. }
    split; [done|]. split; [by apply (gathered_complete net clock)|]. by split.
Qed.

Lemma refreshAll_cycle_witness :
  (refreshAll unplugged (mkClock 0 0) 77 initial).1 = Done tt ∧
  lastUpdated (refreshAll unplugged (mkClock 0 0) 77 initial).2 = Some 77%Z ∧
  isRefreshing (refreshAll unplugged (mkClock 0 0) 77 initial).2 = false.
Proof.
  destruct (refreshAll_cycle unplugged (mkClock 0 0) 77 initial) as (_ & _ & _ & _ & H).
  destruct H as (H1 & _ & H2 & H3).
  - intros svc _ _. reflexivity.
  - intros url Hsec Hin. exfalso.
    assert (made initial (refreshAll unplugged (mkClock 0 0) 77 initial).2 =
            health <$> SERVICES) as Hmade by reflexivity.
    rewrite Hmade in Hin. clear Hmade.
    repeat (apply elem_of_cons in Hsec as [-> | Hsec];
            [repeat (apply elem_of_cons in Hin as [Hin|Hin]; [discriminate Hin|]);
             by apply elem_of_nil in Hin|]).
    by apply elem_of_nil in Hsec.
  - by split_and!.
Defined.

(** The gateway answers its health request and never finishes the body;
    nothing else answers. *)
Definition gateway_stalls : Network := λ url,
  if decide (url = "http://localhost:8000/api/v1/health")
  then Responds 40 (mkResponse 200 BodyStalls)
  else Silent.

(** The first probe is cut off by its timer and the second never ends:
    the third and fourth services are not requested, and the first
    result is not stored. *)
Example refreshAll_stops_at_stalled_probe :
  let r := refreshAll gateway_stalls (mkClock 0 0) 77 initial in
  r.1 = Stuck ∧
  made initial r.2 =
    ["http://localhost:8080/api/health"; "http://localhost:8000/api/v1/health"] ∧
  serviceStatuses r.2 = ∅ ∧ lastUpdated r.2 = None ∧ isRefreshing r.2 = true.
Proof. by split_and!. Qed.

End IntegrationDashboardCycle.
